(** * AeroBench F-16 simulation engine: [aerobench/run_f16_sim.py]

    A shallow embedding of the simulation-stepping engine
    ([F16SimState], [simulate_to], [run_f16_sim]), of the derivative
    evaluator built by [make_der_func] and of [get_extended_states].

    Numbers.  The program computes with Python floats.  Every definition
    below is written over a scalar interface [Scalar R] that gives the
    operations the program uses; [float_scalar] instantiates it with
    IEEE-754 binary64 (Rocq's primitive floats), which is the arithmetic
    the program runs on, and [Z_scalar] with exact integers.  Theorems
    that hold for every arithmetic quantify over the interface; the few
    that need the laws of exact arithmetic say so through [ExactOrder].

    Collaborators.  The autopilot, the flight-dynamics model
    ([controlled_f16]), the state layout ([get_state_names],
    [StateIndex]) and scipy's [RK45] live in other modules; they are
    interfaces here.  The fixed-step [Euler] strategy of [aerobench.util]
    is modelled from the specification. *)

From Stdlib Require Import ZArith List String Bool Lia Floats Uint63.
Import ListNotations.

Set Implicit Arguments.

(** ** Scalars *)

Class Scalar (R : Type) : Type := {
  of_Z : Z -> R;
  add : R -> R -> R;
  sub : R -> R -> R;
  mul : R -> R -> R;
  div : R -> R -> R;
  absR : R -> R;
  ltb : R -> R -> bool;
  leb : R -> R -> bool
}.

(** Python's [a > b] and [a >= b] are the flipped [<] and [<=]; on floats
    all four are false as soon as one side is a NaN. *)
Definition gtb {R} `{Scalar R} (a b : R) : bool := ltb b a.
Definition geb {R} `{Scalar R} (a b : R) : bool := leb b a.

(** ** Exceptions and outcomes *)

Inductive quantity : Type := Q_alpha | Q_velocity | Q_altitude.

(** The exceptions the program can raise.  [SimModelError] carries the
    offending quantity and its value, which the source formats into the
    message ["alpha (<value>) out of bounds"]. *)
Inductive exn (R : Type) : Type :=
| AssertionError (msg : string)
| IndexError
| ZeroDivisionError
| SimModelError (q : quantity) (v : R).

Arguments AssertionError {R} msg.
Arguments IndexError {R}.
Arguments ZeroDivisionError {R}.
Arguments SimModelError {R} q v.

(** What a call produces: a value, an exception, or nothing because a
    [while] loop was cut by the fuel bound of the model. *)
Inductive outcome (R A : Type) : Type :=
| Done (a : A)
| Raised (e : exn R)
| OutOfFuel.

Arguments Done {R A} a.
Arguments Raised {R A} e.
Arguments OutOfFuel {R A}.

Definition bind {R A B} (m : outcome R A) (k : A -> outcome R B) : outcome R B :=
  match m with
  | Done a => k a
  | Raised e => Raised e
  | OutOfFuel => OutOfFuel
  end.

Declare Scope py_scope.
Delimit Scope py_scope with py.
Notation "x <- m ;; k" := (bind m (fun x => k))
  (at level 100, m at next level, right associativity) : py_scope.
Notation "m ;;; k" := (bind m (fun _ => k))
  (at level 100, right associativity) : py_scope.
Open Scope py_scope.

Definition py_assert {R} (b : bool) (msg : string) : outcome R unit :=
  if b then Done tt else Raised (AssertionError msg).

(** [l[-1]] *)
Definition py_last {R A} (l : list A) : outcome R A :=
  match rev l with
  | [] => Raised IndexError
  | a :: _ => Done a
  end.

(** [l[i]] for a non-negative index *)
Definition py_index {R A} (l : list A) (i : nat) : outcome R A :=
  match nth_error l i with
  | Some a => Done a
  | None => Raised IndexError
  end.

(** [l[a:b]] for non-negative bounds: slices never raise, they truncate. *)
Definition slice {A} (l : list A) (a b : nat) : list A :=
  firstn (b - a) (skipn a l).

(** [a // b] on non-negative integers *)
Definition py_floordiv {R} (a b : nat) : outcome R nat :=
  match b with
  | O => Raised ZeroDivisionError
  | S _ => Done (a / b)
  end.

(** ** External calls made by the derivative evaluator

    The evaluator is a function of its inputs, but it reaches the
    autopilot and the dynamics model on the way.  To speak about the
    order of these calls the model logs each one. *)

Inductive event (R : Type) : Type :=
| Ev_get_checked_u_ref (t : R) (full_state : list R)
| Ev_controlled_f16 (t : R) (state u_ref : list R).

Definition traced (R A : Type) : Type := list (event R) * outcome R A.

Definition tret {R A} (a : A) : traced R A := ([], Done a).

Definition tlift {R A} (m : outcome R A) : traced R A := ([], m).

Definition tcall {R A} (e : event R) (a : A) : traced R A := ([e], Done a).

Definition tbind {R A B} (m : traced R A) (k : A -> traced R B) : traced R B :=
  match snd m with
  | Done a => (fst m ++ fst (k a), snd (k a))
  | Raised e => (fst m, Raised e)
  | OutOfFuel => (fst m, OutOfFuel)
  end.

Declare Scope traced_scope.
Delimit Scope traced_scope with traced.
Notation "x <~ m ;; k" := (tbind m (fun x => k))
  (at level 100, m at next level, right associativity) : traced_scope.
Notation "m ~;; k" := (tbind m (fun _ => k))
  (at level 100, right associativity) : traced_scope.

(** [for i in range(n): xs.append(body(i))], stopping at the first
    exception. *)
Fixpoint tfor {R A} (body : nat -> traced R A) (i n : nat) : traced R (list A) :=
  match n with
  | O => tret []
  | S n' =>
      tbind (body i) (fun a =>
      tbind (tfor body (S i) n') (fun rest =>
      tret (a :: rest)))
  end.

(** ** Collaborators *)

(** The autopilot object.  [advance_discrete_mode] mutates it, so it
    returns the new object next to its answer; the other methods only
    read it. *)
Class Autopilot (R AP Mode : Type) : Type := {
  mode : AP -> Mode;
  advance_discrete_mode : AP -> R -> list R -> bool * AP;
  is_finished : AP -> R -> list R -> bool;
  get_checked_u_ref : AP -> R -> list R -> list R;
  llc_get_num_integrators : AP -> nat;
  llc_model_str : AP -> string
}.

(** The output tuple of [controlled_f16]: [xd, u, Nz, ps, Ny_r]. *)
Record f16_output (R : Type) : Type := {
  out_xd : list R;
  out_u : list R;
  out_Nz : R;
  out_ps : R;
  out_Ny_r : R
}.

(** [aerobench.util] and [aerobench.highlevel.controlled_f16]: the state
    layout and the dynamics model. *)
Class Aerobench (R AP : Type) : Type := {
  get_state_names : list string;
  StateIndex_VEL : nat;
  StateIndex_ALPHA : nat;
  StateIndex_ALT : nat;
  controlled_f16 : R -> list R -> list R -> AP -> string -> bool -> f16_output R
}.

(** ** The derivative evaluator and the extended-state extractor *)

Section Dynamics.

Context {R : Type} {SR : Scalar R}.
Context {AP Mode : Type} {APC : Autopilot R AP Mode} {AB : Aerobench R AP}.

Local Open Scope traced_scope.

(** [len(get_state_names()) + ap.llc.get_num_integrators()] *)
Definition num_vars_of (ap : AP) : nat :=
  List.length get_state_names + llc_get_num_integrators ap.

(** The three checks of [der_func], each raising on failure.  The source
    writes the chained comparisons [not -2 < alpha < 2],
    [not 200 <= vel <= 3000] and [not -10000 < alt < 100000]. *)
Definition check_alpha (alpha : R) : outcome R unit :=
  if negb (ltb (of_Z (-2)) alpha && ltb alpha (of_Z 2))
  then Raised (SimModelError Q_alpha alpha) else Done tt.

Definition check_vel (vel : R) : outcome R unit :=
  if negb (leb (of_Z 200) vel && leb vel (of_Z 3000))
  then Raised (SimModelError Q_velocity vel) else Done tt.

Definition check_alt (alt : R) : outcome R unit :=
  if negb (ltb (of_Z (-10000)) alt && ltb alt (of_Z 100000))
  then Raised (SimModelError Q_altitude alt) else Done tt.

(** The body of the [for i in range(num_aircraft)] loop of [der_func]. *)
Definition der_func_aircraft (ap : AP) (model_str : string) (v2_integrators : bool)
    (t : R) (full_state u_refs : list R) (num_vars i : nat) : traced R (list R) :=
  let state := slice full_state (num_vars * i) (num_vars * (i + 1)) in
  alpha <~ tlift (py_index state StateIndex_ALPHA) ;;
  tlift (check_alpha alpha) ~;;
  vel <~ tlift (py_index state StateIndex_VEL) ;;
  tlift (check_vel vel) ~;;
  alt <~ tlift (py_index state StateIndex_ALT) ;;
  tlift (check_alt alt) ~;;
  let u_ref := slice u_refs (4 * i) (4 * (i + 1)) in
  r <~ tcall (Ev_controlled_f16 t state u_ref)
         (controlled_f16 t state u_ref ap model_str v2_integrators) ;;
  tret (out_xd r).

(** [der_func(t, full_state)] as built by [make_der_func(ap, model_str,
    v2_integrators)], with the log of its external calls. *)
Definition der_func_traced (ap : AP) (model_str : string) (v2_integrators : bool)
    (t : R) (full_state : list R) : traced R (list R) :=
  u_refs <~ tcall (Ev_get_checked_u_ref t full_state)
              (get_checked_u_ref ap t full_state) ;;
  num_aircraft <~ tlift (py_floordiv (List.length u_refs) 4) ;;
  let num_vars := num_vars_of ap in
  q <~ tlift (py_floordiv (List.length full_state) num_vars) ;;
  tlift (py_assert (Nat.eqb q num_aircraft) "aircraft count") ~;;
  xds <~ tfor (der_func_aircraft ap model_str v2_integrators t full_state u_refs num_vars)
           0 num_aircraft ;;
  tret (List.concat xds).

(** The closure returned by [make_der_func]: it captures the autopilot by
    reference, so the engine passes the autopilot as it is at the time of
    the call. *)
Definition make_der_func (model_str : string) (v2_integrators : bool)
    (ap : AP) (t : R) (full_state : list R) : outcome R (list R) :=
  snd (der_func_traced ap model_str v2_integrators t full_state).

(** A value that is a single aircraft's, or a tuple over the aircraft. *)
Inductive per_aircraft (A : Type) : Type :=
| Single (a : A)
| Tuple (l : list A).

Definition pack {A} (num_aircraft : nat) (l : list A) : outcome R (per_aircraft A) :=
  if Nat.eqb num_aircraft 1 then (a <- py_index l 0 ;; Done (Single a))%py
  else Done (Tuple l).

Record extended (R' : Type) : Type := {
  ext_xd : per_aircraft (list R');
  ext_u : per_aircraft (list R');
  ext_Nz : per_aircraft R';
  ext_ps : per_aircraft R';
  ext_Ny_r : per_aircraft R'
}.

Definition get_extended_states_traced (ap : AP) (t : R) (full_state : list R)
    (model_str : string) (v2_integrators : bool) : traced R (extended R) :=
  let num_vars := num_vars_of ap in
  num_aircraft <~ tlift (py_floordiv (List.length full_state) num_vars) ;;
  u_refs <~ tcall (Ev_get_checked_u_ref t full_state)
              (get_checked_u_ref ap t full_state) ;;
  outs <~ tfor (fun i =>
             let state := slice full_state (num_vars * i) (num_vars * (i + 1)) in
             let u_ref := slice u_refs (4 * i) (4 * (i + 1)) in
             tcall (Ev_controlled_f16 t state u_ref)
               (controlled_f16 t state u_ref ap model_str v2_integrators))
            0 num_aircraft ;;
  rv_xd <~ tlift (pack num_aircraft (map (@out_xd R) outs)) ;;
  rv_u <~ tlift (pack num_aircraft (map (@out_u R) outs)) ;;
  rv_Nz <~ tlift (pack num_aircraft (map (@out_Nz R) outs)) ;;
  rv_ps <~ tlift (pack num_aircraft (map (@out_ps R) outs)) ;;
  rv_Ny_r <~ tlift (pack num_aircraft (map (@out_Ny_r R) outs)) ;;
  tret {| ext_xd := rv_xd; ext_u := rv_u; ext_Nz := rv_Nz;
          ext_ps := rv_ps; ext_Ny_r := rv_Ny_r |}.

Definition get_extended_states (ap : AP) (t : R) (full_state : list R)
    (model_str : string) (v2_integrators : bool) : outcome R (extended R) :=
  snd (get_extended_states_traced ap t full_state model_str v2_integrators).

End Dynamics.

(** ** Vocabulary for the derivative evaluator *)

Section DynamicsSpec.

Context {R : Type} {SR : Scalar R}.
Context {AP Mode : Type} {APC : Autopilot R AP Mode} {AB : Aerobench R AP}.

(** The sub-state of aircraft [i] and its slice of the control
    references, as [der_func] cuts them. *)
Definition sub_state (full_state : list R) (num_vars i : nat) : list R :=
  slice full_state (num_vars * i) (num_vars * (i + 1)).

Definition sub_u_ref (u_refs : list R) (i : nat) : list R :=
  slice u_refs (4 * i) (4 * (i + 1)).

(** The validity envelope in the words of the specification:
    angle of attack in the open interval (-2, 2), airspeed in the closed
    interval [200, 3000], altitude in the open interval
    (-10000, 100000). *)
Definition alpha_in_range (v : R) : bool := ltb (of_Z (-2)) v && ltb v (of_Z 2).
Definition vel_in_range (v : R) : bool := leb (of_Z 200) v && leb v (of_Z 3000).
Definition alt_in_range (v : R) : bool := ltb (of_Z (-10000)) v && ltb v (of_Z 100000).

Definition envelope_spec (state : list R) : bool :=
  match nth_error state StateIndex_ALPHA, nth_error state StateIndex_VEL,
        nth_error state StateIndex_ALT with
  | Some a, Some v, Some h => alpha_in_range a && vel_in_range v && alt_in_range h
  | _, _, _ => false
  end.

(** [violates state q v]: [v] is the value of quantity [q] in [state] and
    lies outside the interval of [q]. *)
Definition violates (state : list R) (q : quantity) (v : R) : Prop :=
  match q with
  | Q_alpha => nth_error state StateIndex_ALPHA = Some v /\ alpha_in_range v = false
  | Q_velocity => nth_error state StateIndex_VEL = Some v /\ vel_in_range v = false
  | Q_altitude => nth_error state StateIndex_ALT = Some v /\ alt_in_range v = false
  end.

(** The layout is well formed for [num_vars] components when the three
    indices the evaluator reads exist. *)
Definition layout_ok (num_vars : nat) : Prop :=
  StateIndex_ALPHA < num_vars /\ StateIndex_VEL < num_vars /\ StateIndex_ALT < num_vars.

(** The call of the dynamics model for aircraft [j] and the derivative it
    returns. *)
Definition ev_f16 (t : R) (fs u : list R) (nv j : nat) : event R :=
  Ev_controlled_f16 t (sub_state fs nv j) (sub_u_ref u j).

Definition xd_f16 (ap : AP) (ms : string) (v2 : bool) (t : R) (fs u : list R)
    (nv j : nat) : list R :=
  out_xd (controlled_f16 t (sub_state fs nv j) (sub_u_ref u j) ap ms v2).

(** The indices the evaluator reads exist in the sub-state of aircraft [j]. *)
Definition indexable (fs : list R) (nv j : nat) : Prop :=
  StateIndex_ALPHA < List.length (sub_state fs nv j) /\
  StateIndex_VEL < List.length (sub_state fs nv j) /\
  StateIndex_ALT < List.length (sub_state fs nv j).

(** The part of [der_func] that follows the call of the accessor. *)
Definition der_func_rest (ap : AP) (ms : string) (v2 : bool) (t : R)
    (fs u_refs : list R) : traced R (list R) :=
  (num_aircraft <~ tlift (py_floordiv (List.length u_refs) 4) ;;
   let num_vars := num_vars_of ap in
   q <~ tlift (py_floordiv (List.length fs) num_vars) ;;
   tlift (py_assert (Nat.eqb q num_aircraft) "aircraft count") ~;;
   xds <~ tfor (der_func_aircraft ap ms v2 t fs u_refs num_vars) 0 num_aircraft ;;
   tret (List.concat xds))%traced.

End DynamicsSpec.

(** ** Integrator strategies *)

(** The classes [integrator_class] can hold. *)
Inductive integrator_cls : Type := RK45 | Euler.

(** An integrator object: the attributes the engine reads and writes
    ([status], [t], [x]) and whatever else the strategy keeps. *)
Record Integrator (R P : Type) : Type := {
  status : string;
  t : R;
  x : list R;
  internals : P
}.

Definition set_status {R P} (i : Integrator R P) (st : string) : Integrator R P :=
  {| status := st; t := t i; x := x i; internals := internals i |}.

(** One strategy: its constructor
    [cls(der_func, t0, x0, t_bound, **kwargs)] ([t_bound = None] stands
    for [np.inf]), [step()] and [dense_output()(t)].  The derivative
    function is passed at each call because it closes over the mutable
    autopilot.  All three may raise. *)
Record strategy (R P : Type) : Type := {
  strat_new : (R -> list R -> outcome R (list R)) -> R -> list R -> option R ->
              list (string * R) -> outcome R (Integrator R P);
  strat_step : (R -> list R -> outcome R (list R)) -> Integrator R P ->
               outcome R (Integrator R P);
  strat_dense_output : Integrator R P -> R -> outcome R (list R)
}.

Class Solvers (R P : Type) : Type := {
  solver_of : integrator_cls -> strategy R P
}.

(** *** The fixed-step Euler strategy *)

Record euler_internals (R : Type) : Type := {
  e_step : R;
  e_prev : option (R * list R)
}.

Section EulerStrategy.

Context {R : Type} {SR : Scalar R}.

Fixpoint kwarg (name : string) (kwargs : list (string * R)) : option R :=
  match kwargs with
  | [] => None
  | (k, v) :: rest => if String.eqb k name then Some v else kwarg name rest
  end.

(** [y + a * d], componentwise *)
Fixpoint axpy (a : R) (d y : list R) : list R :=
  match d, y with
  | di :: d', yi :: y' => add yi (mul a di) :: axpy a d' y'
  | _, _ => []
  end.

(** [a - b], componentwise *)
Fixpoint vsub (a b : list R) : list R :=
  match a, b with
  | ai :: a', bi :: b' => sub ai bi :: vsub a' b'
  | _, _ => []
  end.

(** Modelled from the spec: the constructor of [aerobench.util.Euler],
    which is missing here.  The step size is supplied at construction and
    used for every step; a new integrator is running at the given time
    and state. *)
Definition Euler_new (der : R -> list R -> outcome R (list R)) (t0 : R) (x0 : list R)
    (t_bound : option R) (kwargs : list (string * R))
    : outcome R (Integrator R (euler_internals R)) :=
  match kwarg "step" kwargs with
  | None => Raised (AssertionError "arg step required in Euler integrator")
  | Some h =>
      Done {| status := "running"; t := t0; x := x0;
              internals := {| e_step := h; e_prev := None |} |}
  end.

(** Modelled from the spec: [Euler.step()], missing here.  It advances by
    the fixed increment; when the derivative function signals an invalid
    state the status becomes [failed] and nothing is raised; otherwise
    the status stays [running]. *)
Definition Euler_step (der : R -> list R -> outcome R (list R))
    (i : Integrator R (euler_internals R))
    : outcome R (Integrator R (euler_internals R)) :=
  match der (t i) (x i) with
  | Done xd =>
      let h := e_step (internals i) in
      Done {| status := "running";
              t := add (t i) h;
              x := axpy h xd (x i);
              internals := {| e_step := h; e_prev := Some (t i, x i) |} |}
  | Raised _ => Done (set_status i "failed")
  | OutOfFuel => OutOfFuel
  end.

(** Modelled from the spec: [Euler.dense_output()], missing here: linear
    interpolation over the last step.  Before the first step there is no
    last step and the call fails. *)
Definition Euler_dense_output (i : Integrator R (euler_internals R)) (tq : R)
    : outcome R (list R) :=
  match e_prev (internals i) with
  | None => Raised (AssertionError "dense_output before the first step")
  | Some (tprev, xprev) =>
      let w := div (sub tq tprev) (sub (t i) tprev) in
      Done (axpy w (vsub (x i) xprev) xprev)
  end.

Definition Euler_strategy : strategy R (euler_internals R) :=
  {| strat_new := Euler_new;
     strat_step := Euler_step;
     strat_dense_output := Euler_dense_output |}.

End EulerStrategy.

(** ** The simulation engine *)

(** The attributes of an [F16SimState] object.  The five extended lists
    exist only when [extended_states] is set; they are empty and never
    touched otherwise.  [der_func] is recomputed from [ap], [model_str]
    and [v2_integrators] (see [der_func_of]); [total_sim_time], a
    wall-clock measurement, is left out. *)
Record F16SimState (R AP Mode P : Type) : Type := {
  model_str : string;
  v2_integrators : bool;
  step : R;
  ap : AP;
  print_errors : bool;
  times : list R;
  states : list (list R);
  modes : list Mode;
  extended_states : bool;
  xd_list : list (per_aircraft (list R));
  u_list : list (per_aircraft (list R));
  Nz_list : list (per_aircraft R);
  ps_list : list (per_aircraft R);
  Ny_r_list : list (per_aircraft R);
  integrator_kwargs : list (string * R);
  integrator_class : integrator_cls;
  integrator : Integrator R P;
  cur_sim_time : R
}.

(** Control leaves one pass of a [while True] body by [break] or by
    falling through to the next pass. *)
Inductive flow (A : Type) : Type :=
| Break (a : A)
| Continue (a : A).

(** The dictionary [run_f16_sim] returns; the extended keys are present
    only when asked for, and ['runtime'] is left out. *)
Record sim_result (R Mode : Type) : Type := {
  res_status : string;
  res_times : list R;
  res_states : list (list R);
  res_modes : list Mode;
  res_xd_list : option (list (per_aircraft (list R)));
  res_ps_list : option (list (per_aircraft R));
  res_Nz_list : option (list (per_aircraft R));
  res_Ny_r_list : option (list (per_aircraft R));
  res_u_list : option (list (per_aircraft (list R)))
}.

Section Engine.

Context {R : Type} {SR : Scalar R}.
Context {AP Mode : Type} {APC : Autopilot R AP Mode} {AB : Aerobench R AP}.
Context {P : Type} {SV : Solvers R P}.

Local Abbreviation State := (F16SimState R AP Mode P).

(** Attribute updates. *)
Definition set_cur_sim_time (s : State) (tm : R) : State :=
  {| model_str := model_str s; v2_integrators := v2_integrators s; step := step s;
     ap := ap s; print_errors := print_errors s;
     times := times s; states := states s; modes := modes s;
     extended_states := extended_states s;
     xd_list := xd_list s; u_list := u_list s; Nz_list := Nz_list s;
     ps_list := ps_list s; Ny_r_list := Ny_r_list s;
     integrator_kwargs := integrator_kwargs s;
     integrator_class := integrator_class s;
     integrator := integrator s; cur_sim_time := tm |}.

Definition set_integrator (s : State) (i : Integrator R P) : State :=
  {| model_str := model_str s; v2_integrators := v2_integrators s; step := step s;
     ap := ap s; print_errors := print_errors s;
     times := times s; states := states s; modes := modes s;
     extended_states := extended_states s;
     xd_list := xd_list s; u_list := u_list s; Nz_list := Nz_list s;
     ps_list := ps_list s; Ny_r_list := Ny_r_list s;
     integrator_kwargs := integrator_kwargs s;
     integrator_class := integrator_class s;
     integrator := i; cur_sim_time := cur_sim_time s |}.

(** [times.append(tn); states.append(xn)], the autopilot as mutated by
    [advance_discrete_mode], and [modes.append(ap.mode)]. *)
Definition append_sample (s : State) (tn : R) (xn : list R) (ap' : AP) : State :=
  {| model_str := model_str s; v2_integrators := v2_integrators s; step := step s;
     ap := ap'; print_errors := print_errors s;
     times := times s ++ [tn]; states := states s ++ [xn];
     modes := modes s ++ [mode ap'];
     extended_states := extended_states s;
     xd_list := xd_list s; u_list := u_list s; Nz_list := Nz_list s;
     ps_list := ps_list s; Ny_r_list := Ny_r_list s;
     integrator_kwargs := integrator_kwargs s;
     integrator_class := integrator_class s;
     integrator := integrator s; cur_sim_time := cur_sim_time s |}.

(** The five [append]s of the extended lists. *)
Definition append_extended (s : State) (e : extended R) : State :=
  {| model_str := model_str s; v2_integrators := v2_integrators s; step := step s;
     ap := ap s; print_errors := print_errors s;
     times := times s; states := states s; modes := modes s;
     extended_states := extended_states s;
     xd_list := xd_list s ++ [ext_xd e]; u_list := u_list s ++ [ext_u e];
     Nz_list := Nz_list s ++ [ext_Nz e];
     ps_list := ps_list s ++ [ext_ps e]; Ny_r_list := Ny_r_list s ++ [ext_Ny_r e];
     integrator_kwargs := integrator_kwargs s;
     integrator_class := integrator_class s;
     integrator := integrator s; cur_sim_time := cur_sim_time s |}.

(** [self.der_func]: the closure over the autopilot as it is now. *)
Definition der_func_of (s : State) : R -> list R -> outcome R (list R) :=
  make_der_func (model_str s) (v2_integrators s) (ap s).

(** [x0 = np.zeros(num_vars); x0[:initial_state.shape[0]] = initial_state] *)
Definition pad_state (initial_state : list R) (num_vars : nat) : list R :=
  initial_state ++ repeat (of_Z 0) (num_vars - List.length initial_state).

(** [F16SimState.__init__] *)
Definition F16SimState_init (initial_state : list R) (ap0 : AP) (step0 : R)
    (extended_states0 : bool) (integrator_str : string) (v2_integrators0 : bool)
    (print_errors0 : bool) : outcome R State :=
  let model_str0 := llc_model_str ap0 in
  let num_vars := num_vars_of ap0 in
  let x0 := if Nat.ltb (List.length initial_state) num_vars
            then pad_state initial_state num_vars
            else initial_state in
  match num_vars with
  | O => Raised ZeroDivisionError
  | S _ => py_assert (Nat.eqb (List.length x0 mod num_vars) 0)
                     "expected initial state to be multiple of num_vars"
  end ;;;
  let times0 := [of_Z 0] in
  let states0 := [x0] in
  let ap1 := snd (advance_discrete_mode ap0 (of_Z 0) x0) in
  let modes0 := [mode ap1] in
  ext <- (if extended_states0
          then e <- get_extended_states ap1 (of_Z 0) x0 model_str0 v2_integrators0 ;;
               Done ([ext_xd e], [ext_u e], [ext_Nz e], [ext_ps e], [ext_Ny_r e])
          else Done ([], [], [], [], [])) ;;
  let '(xd0, u0, Nz0, ps0, Ny_r0) := ext in
  clk <- (if String.eqb integrator_str "rk45" then Done (RK45, [])
          else py_assert (String.eqb integrator_str "euler") "integrator_str" ;;;
               Done (Euler, [("step"%string, step0)])) ;;
  let '(cls, kwargs) := clk in
  integ <- strat_new (solver_of cls) (make_der_func model_str0 v2_integrators0 ap1)
             (of_Z 0) x0 None kwargs ;;
  Done {| model_str := model_str0; v2_integrators := v2_integrators0; step := step0;
          ap := ap1; print_errors := print_errors0;
          times := times0; states := states0; modes := modes0;
          extended_states := extended_states0;
          xd_list := xd0; u_list := u0; Nz_list := Nz0; ps_list := ps0;
          Ny_r_list := Ny_r0;
          integrator_kwargs := kwargs; integrator_class := cls;
          integrator := integ; cur_sim_time := of_Z 0 |}.

(** The inner loop of [simulate_to]:
    [while next_step_time >= integrator.t + tol: integrator.step(); if
    integrator.status != 'running': break]. *)
Fixpoint advance (fuel : nat) (cls : integrator_cls)
    (der : R -> list R -> outcome R (list R)) (next_step_time tol : R)
    (integ : Integrator R P) : outcome R (Integrator R P) :=
  if geb next_step_time (add (t integ) tol) then
    match fuel with
    | O => OutOfFuel
    | S fuel' =>
        integ' <- strat_step (solver_of cls) der integ ;;
        if negb (String.eqb (status integ') "running") then Done integ'
        else advance fuel' cls der next_step_time tol integ'
    end
  else Done integ.

(** The sample time the next pass aims at: [times[-1] + step], replaced
    by [tmax] for a small last step. *)
Definition next_sample_time (last_t step0 tmax tol : R) : R :=
  let next_step_time := add last_t step0 in
  if gtb (absR (sub last_t tmax)) tol && gtb next_step_time tmax
  then tmax else next_step_time.

(** The state appended for the sample at [next_step_time]. *)
Definition sample_state (cls : integrator_cls) (integ : Integrator R P)
    (next_step_time tol : R) : outcome R (list R) :=
  if ltb (absR (sub (t integ) next_step_time)) tol then Done (x integ)
  else strat_dense_output (solver_of cls) integ next_step_time.

(** [if self.extended_states: ... append(...)] for the sample just
    recorded; the autopilot has already advanced its mode. *)
Definition record_extended (s : State) (tn : R) (xn : list R) : outcome R State :=
  if extended_states s
  then e <- get_extended_states (ap s) tn xn (model_str s) (v2_integrators s) ;;
       Done (append_extended s e)
  else Done s.

(** The end of a pass: stop when the autopilot says so, re-create the
    integrator after a mode change. *)
Definition finish_or_reinit (s : State) (mode_changed : bool) (tn : R) (xn : list R)
    : outcome R (flow State) :=
  if is_finished (ap s) tn xn
  then Done (Break (set_integrator s (set_status (integrator s) "autopilot finished")))
  else if mode_changed
  then integ' <- strat_new (solver_of (integrator_class s)) (der_func_of s)
                   tn xn None (integrator_kwargs s) ;;
       Done (Continue (set_integrator s integ'))
  else Done (Continue s).

(** One pass through the body of the [while True] loop of [simulate_to]. *)
Definition simulate_body (inner_fuel : nat) (tmax tol : R) (s : State)
    : outcome R (flow State) :=
  last_t <- py_last (times s) ;;
  let next_step_time := next_sample_time last_t (step s) tmax tol in
  if geb next_step_time (add tmax tol) then Done (Break s)
  else
    integ <- advance inner_fuel (integrator_class s) (der_func_of s)
               next_step_time tol (integrator s) ;;
    let s1 := set_integrator s integ in
    if negb (String.eqb (status integ) "running") then Done (Break s1)
    else
      xn <- sample_state (integrator_class s) integ next_step_time tol ;;
      let mc := advance_discrete_mode (ap s1) next_step_time xn in
      let s2 := append_sample s1 next_step_time xn (snd mc) in
      s3 <- record_extended s2 next_step_time xn ;;
      finish_or_reinit s3 (fst mc) next_step_time xn.

Fixpoint simulate_loop (fuel inner_fuel : nat) (tmax tol : R) (s : State)
    : outcome R State :=
  match fuel with
  | O => OutOfFuel
  | S fuel' =>
      r <- simulate_body inner_fuel tmax tol s ;;
      match r with
      | Break s' => Done s'
      | Continue s' => simulate_loop fuel' inner_fuel tmax tol s'
      end
  end.

(** [F16SimState.simulate_to(tmax, tol)].  The warning printed when the
    status is ['failed'] and the wall-clock bookkeeping do not change the
    object and are left out. *)
Definition simulate_to (fuel inner_fuel : nat) (s : State) (tmax tol : R)
    : outcome R State :=
  py_assert (geb tmax (cur_sim_time s)) "tmax >= self.cur_sim_time" ;;;
  let s0 := set_cur_sim_time s tmax in
  py_assert (String.eqb (status (integrator s0)) "running")
            "integrator status in call to simulate_to()" ;;;
  simulate_loop fuel inner_fuel tmax tol s0.

(** [run_f16_sim]; [tol_default] is the literal [1e-7], which is both the
    default of [simulate_to]'s [tol] and the bound of the final
    assertion. *)
Definition run_f16_sim (fuel inner_fuel : nat) (tol_default : R)
    (initial_state : list R) (tmax : R) (ap0 : AP) (step0 : R)
    (extended_states0 : bool) (integrator_str : string) (v2_integrators0 : bool)
    (print_errors0 : bool) : outcome R (sim_result R Mode) :=
  fss0 <- F16SimState_init initial_state ap0 step0 extended_states0 integrator_str
            v2_integrators0 print_errors0 ;;
  fss <- simulate_to fuel inner_fuel fss0 tmax tol_default ;;
  last_t <- py_last (times fss) ;;
  py_assert (ltb (absR (sub last_t tmax)) tol_default)
            "asked for simulation to time tmax, got another final time" ;;;
  let ext {A} (l : list A) := if extended_states0 then Some l else None in
  Done {| res_status := status (integrator fss);
          res_times := times fss;
          res_states := states fss;
          res_modes := modes fss;
          res_xd_list := ext (xd_list fss);
          res_ps_list := ext (ps_list fss);
          res_Nz_list := ext (Nz_list fss);
          res_Ny_r_list := ext (Ny_r_list fss);
          res_u_list := ext (u_list fss) |}.

End Engine.

(** ** The two arithmetics *)

Definition float_of_Z (z : Z) : float :=
  match z with
  | Z0 => 0%float
  | Zpos p => PrimFloat.of_uint63 (Uint63.of_Z (Zpos p))
  | Zneg p => PrimFloat.opp (PrimFloat.of_uint63 (Uint63.of_Z (Zpos p)))
  end.

(** IEEE-754 binary64, the arithmetic of Python's [float]. *)
#[export] Instance float_scalar : Scalar float := {|
  of_Z := float_of_Z;
  add := PrimFloat.add;
  sub := PrimFloat.sub;
  mul := PrimFloat.mul;
  div := PrimFloat.div;
  absR := PrimFloat.abs;
  ltb := PrimFloat.ltb;
  leb := PrimFloat.leb
|}.

(** Exact integer arithmetic (times counted in whole ticks). *)
#[export] Instance Z_scalar : Scalar Z := {|
  of_Z := fun z => z;
  add := Z.add;
  sub := Z.sub;
  mul := Z.mul;
  div := Z.div;
  absR := Z.abs;
  ltb := Z.ltb;
  leb := Z.leb
|}.

(** ** Test doubles for the collaborators

    A scripted autopilot and a stand-in dynamics model, used to run the
    engine on concrete inputs.  The autopilot switches mode once, at the
    first sample at or after [sa_switch_time], declares completion from
    [sa_finish_time] on, and always answers [sa_u_refs]. *)

Record script_ap (R : Type) : Type := {
  sa_mode : nat;
  sa_switch_time : option R;
  sa_finish_time : option R;
  sa_u_refs : list R
}.

#[export] Instance script_autopilot {R} `{Scalar R} : Autopilot R (script_ap R) nat := {|
  mode := @sa_mode R;
  advance_discrete_mode := fun a tm _ =>
    match sa_switch_time a with
    | Some ts =>
        if leb ts tm
        then (true, {| sa_mode := S (sa_mode a); sa_switch_time := None;
                       sa_finish_time := sa_finish_time a; sa_u_refs := sa_u_refs a |})
        else (false, a)
    | None => (false, a)
    end;
  is_finished := fun a tm _ =>
    match sa_finish_time a with
    | Some tf => leb tf tm
    | None => false
    end;
  get_checked_u_ref := fun a _ _ => sa_u_refs a;
  llc_get_num_integrators := fun _ => 3;
  llc_model_str := fun _ => "morelli"%string
|}.

(** The F-16 state layout (thirteen names, airspeed first, angle of
    attack second, altitude twelfth) with a stand-in dynamics model: the
    angle of attack changes at the rate given by the first control
    reference, everything else stays put. *)
#[export] Instance stub_aerobench {R} `{Scalar R} : Aerobench R (script_ap R) := {|
  get_state_names :=
    ["vt"; "alpha"; "beta"; "phi"; "theta"; "psi"; "P"; "Q"; "R";
     "pos_n"; "pos_e"; "alt"; "pow"]%string;
  StateIndex_VEL := 0;
  StateIndex_ALPHA := 1;
  StateIndex_ALT := 11;
  controlled_f16 := fun _ state u_ref _ _ _ =>
    {| out_xd := map (fun i => if Nat.eqb i 1 then nth 0 u_ref (of_Z 0) else of_Z 0)
                     (seq 0 (List.length state));
       out_u := u_ref;
       out_Nz := of_Z 0; out_ps := of_Z 0; out_Ny_r := of_Z 0 |}
|}.

(** Both classes are served by the Euler strategy in the concrete runs,
    which all ask for ['euler']. *)
#[export] Instance euler_solvers {R} `{Scalar R} : Solvers R (euler_internals R) := {|
  solver_of := fun _ => Euler_strategy
|}.


(** ** Laws of the comparisons

    [ComparisonLaws] holds of IEEE comparisons (NaN included) as well as
    of exact ones; [ExactOrder] adds what only exact arithmetic has: the
    order is total and adding a positive number gives a larger one. *)

Class ComparisonLaws (R : Type) `{Scalar R} : Prop := {
  leb_refl_r : forall a b : R, leb a b = true -> leb b b = true;
  leb_ltb_not_ltb : forall a b c : R, leb a b = true -> ltb b c = true -> ltb c a = false;
  leb_ltb_not_leb : forall a b c : R, leb a b = true -> ltb b c = true -> leb c a = false;
  leb_ltb_leb : forall a b c : R, leb a b = true -> ltb b c = true -> leb a c = true
}.

Class ExactOrder (R : Type) `{Scalar R} : Prop := {
  ltb_leb_trans : forall a b c : R, ltb a b = true -> leb b c = true -> ltb a c = true;
  leb_total : forall a b : R, leb a b = false -> ltb b a = true;
  add_pos_gt : forall a s : R, ltb (of_Z 0) s = true -> ltb a (add a s) = true;
  add_leb_mono_r : forall a b c : R, leb a b = true -> leb (add a c) (add b c) = true;
  far_below : forall a b tol : R,
    ltb tol (absR (sub a b)) = true -> ltb a (add b tol) = true -> ltb a b = true
}.

(** ** Vocabulary for the engine *)

Section EngineSpec.

Context {R : Type} {SR : Scalar R}.
Context {AP Mode : Type} {APC : Autopilot R AP Mode} {AB : Aerobench R AP}.
Context {P : Type} {SV : Solvers R P}.

Local Abbreviation State := (F16SimState R AP Mode P).

Definition state_of (r : flow State) : State :=
  match r with
  | Break s => s
  | Continue s => s
  end.

(** The three ways through one pass of the loop of [simulate_to]: the
    horizon is already covered; the integrator stopped running while
    being stepped; a sample was recorded. *)
Inductive pass_of (inner_fuel : nat) (tmax tol : R) (s : State) : flow State -> Prop :=
| pass_covered last_t :
    py_last (R:=R) (times s) = Done last_t ->
    geb (next_sample_time last_t (step s) tmax tol) (add tmax tol) = true ->
    pass_of inner_fuel tmax tol s (Break s)
| pass_halted last_t integ :
    py_last (R:=R) (times s) = Done last_t ->
    geb (next_sample_time last_t (step s) tmax tol) (add tmax tol) = false ->
    advance inner_fuel (integrator_class s) (der_func_of s)
      (next_sample_time last_t (step s) tmax tol) tol (integrator s) = Done integ ->
    String.eqb (status integ) "running" = false ->
    pass_of inner_fuel tmax tol s (Break (set_integrator s integ))
| pass_sampled last_t integ xn s3 r :
    py_last (R:=R) (times s) = Done last_t ->
    geb (next_sample_time last_t (step s) tmax tol) (add tmax tol) = false ->
    advance inner_fuel (integrator_class s) (der_func_of s)
      (next_sample_time last_t (step s) tmax tol) tol (integrator s) = Done integ ->
    String.eqb (status integ) "running" = true ->
    sample_state (integrator_class s) integ
      (next_sample_time last_t (step s) tmax tol) tol = Done xn ->
    record_extended
      (append_sample (set_integrator s integ)
         (next_sample_time last_t (step s) tmax tol) xn
         (snd (advance_discrete_mode (ap s) (next_sample_time last_t (step s) tmax tol) xn)))
      (next_sample_time last_t (step s) tmax tol) xn = Done s3 ->
    finish_or_reinit s3
      (fst (advance_discrete_mode (ap s) (next_sample_time last_t (step s) tmax tol) xn))
      (next_sample_time last_t (step s) tmax tol) xn = Done r ->
    pass_of inner_fuel tmax tol s r.


(** The trajectory lists are aligned. *)
Definition shape_ok (s : State) : Prop :=
  List.length (times s) = List.length (states s) /\
  List.length (states s) = List.length (modes s) /\
  (extended_states s = true ->
     List.length (xd_list s) = List.length (times s) /\
     List.length (u_list s) = List.length (times s) /\
     List.length (Nz_list s) = List.length (times s) /\
     List.length (ps_list s) = List.length (times s) /\
     List.length (Ny_r_list s) = List.length (times s)).



(** The samples [new], recorded after time [prev], lie on the output
    grid and not beyond [T]: each is its predecessor plus [step0]. *)
Fixpoint on_grid (step0 T prev : R) (new : list R) : Prop :=
  match new with
  | [] => True
  | tn :: rest => tn = add prev step0 /\ leb tn T = true /\ on_grid step0 T tn rest
  end.

(** The samples of a trajectory recorded up to time [T]. *)
Definition upto (T : R) (s : State) : list (R * list R * Mode) :=
  filter (fun smp => leb (fst (fst smp)) T)
         (combine (combine (times s) (states s)) (modes s)).


(** What no pass changes. *)
Definition same_config (s s' : State) : Prop :=
  step s' = step s /\ cur_sim_time s' = cur_sim_time s /\
  extended_states s' = extended_states s /\
  integrator_class s' = integrator_class s /\
  integrator_kwargs s' = integrator_kwargs s /\
  model_str s' = model_str s /\ v2_integrators s' = v2_integrators s /\
  print_errors s' = print_errors s.

(** The trajectory of [s'] is that of [s]. *)
Definition same_trajectory (s s' : State) : Prop :=
  times s' = times s /\ states s' = states s /\ modes s' = modes s /\
  xd_list s' = xd_list s /\ u_list s' = u_list s /\ Nz_list s' = Nz_list s /\
  ps_list s' = ps_list s /\ Ny_r_list s' = Ny_r_list s.

(** The trajectory of [s'] is that of [s] with one more sample. *)
Definition one_more_sample (s s' : State) (tn : R) (xn : list R) : Prop :=
  times s' = times s ++ [tn] /\ states s' = states s ++ [xn] /\
  (exists m, modes s' = modes s ++ [m]) /\
  ((extended_states s = false /\
    xd_list s' = xd_list s /\ u_list s' = u_list s /\ Nz_list s' = Nz_list s /\
    ps_list s' = ps_list s /\ Ny_r_list s' = Ny_r_list s) \/
   (extended_states s = true /\ exists e,
    xd_list s' = xd_list s ++ [ext_xd e] /\ u_list s' = u_list s ++ [ext_u e] /\
    Nz_list s' = Nz_list s ++ [ext_Nz e] /\ ps_list s' = ps_list s ++ [ext_ps e] /\
    Ny_r_list s' = Ny_r_list s ++ [ext_Ny_r e])).

(** Every sample of [s] is still there in [s'], at its place. *)
Definition keeps_samples (s s' : State) : Prop :=
  exists ts xs ms,
    times s' = times s ++ ts /\ states s' = states s ++ xs /\ modes s' = modes s ++ ms.

(** [times] starts with the time 0. *)
Definition starts_at_zero (s : State) : Prop :=
  exists rest, times s = of_Z 0 :: rest.

(** [set_cur_sim_time] under a [break] or a fall-through. *)
Definition shift_cur (c : R) (r : flow State) : flow State :=
  match r with
  | Break s => Break (set_cur_sim_time s c)
  | Continue s => Continue (set_cur_sim_time s c)
  end.

Definition omap {A B} (f : A -> B) (m : outcome R A) : outcome R B :=
  match m with
  | Done a => Done (f a)
  | Raised e => Raised e
  | OutOfFuel => OutOfFuel
  end.

(** No strategy reports the status [finished] by itself.  (The engine
    constructs every integrator with an unbounded horizon, which no
    integration reaches.) *)
Definition strategies_never_finished : Prop :=
  (forall cls der (i i' : Integrator R P),
     strat_step (solver_of cls) der i = Done i' -> status i' <> "finished"%string) /\
  (forall cls der t0 x0 tb kw (i' : Integrator R P),
     strat_new (solver_of cls) der t0 x0 tb kw = Done i' -> status i' <> "finished"%string).

End EngineSpec.

(** ** The order of binary64 numbers

    A float that is not a NaN has a place in a lexicographic order of
    triples: its class (negative infinity, negative, zero, positive,
    positive infinity), then exponent and mantissa, both negated for
    negative numbers. *)
Definition SFkey (f : spec_float) : option (Z * Z * Z) :=
  match f with
  | S754_nan => None
  | S754_zero _ => Some (0, 0, 0)%Z
  | S754_infinity true => Some (-2, 0, 0)%Z
  | S754_infinity false => Some (2, 0, 0)%Z
  | S754_finite true m e => Some (-1, - e, - Zpos m)%Z
  | S754_finite false m e => Some (1, e, Zpos m)%Z
  end.

Definition key_lt (a b : Z * Z * Z) : Prop :=
  (fst (fst a) < fst (fst b) \/
   (fst (fst a) = fst (fst b) /\
    (snd (fst a) < snd (fst b) \/ (snd (fst a) = snd (fst b) /\ snd a < snd b))))%Z.

(** ** Concrete scenarios (binary64) *)

Local Open Scope float_scope.

Abbreviation FState := (F16SimState float (script_ap float) nat (euler_internals float)).

(** Python's [1e-7], the default tolerance. *)
Definition tol_default : float := 0x1.ad7f29abcaf48p-24.

(** Airspeed 500, angle of attack 0, altitude 1000, power 9: thirteen
    components, which the constructor pads with three zeros. *)
Definition nominal_state : list float :=
  [500; 0; 0; 0; 0; 0; 0; 0; 0; 0; 0; 1000; 9].

Definition nominal16 : list float := nominal_state ++ [0; 0; 0].

(** Three stray components after a state. *)
Definition trailing3 : list float := [7; 7; 7].


(** The same aircraft at an altitude of 200000. *)
Definition high16 : list float :=
  [500; 0; 0; 0; 0; 0; 0; 0; 0; 0; 0; 200000; 9; 0; 0; 0].

(** An autopilot that never changes mode and never declares completion;
    its control references keep the stand-in aircraft still. *)
Definition quiet_ap : script_ap float :=
  {| sa_mode := 0; sa_switch_time := None; sa_finish_time := None;
     sa_u_refs := [0; 0; 0; 0] |}.

(** The same for two aircraft. *)
Definition quiet_ap2 : script_ap float :=
  {| sa_mode := 0; sa_switch_time := None; sa_finish_time := None;
     sa_u_refs := [0; 0; 0; 0; 0; 0; 0; 0] |}.


(** An autopilot that changes mode at the first sample at or after
    time 1. *)
Definition switching_ap : script_ap float :=
  {| sa_mode := 0; sa_switch_time := Some 1; sa_finish_time := None;
     sa_u_refs := [0; 0; 0; 0] |}.

(** A fresh engine on the nominal state with the Euler strategy. *)
Definition fresh (a : script_ap float) (step0 : float) : outcome float FState :=
  F16SimState_init nominal_state a step0 false "euler" false true.

(** [simulate_to(T1)] then [simulate_to(T2)], with tolerances [tol1] and
    [tol2], on a fresh engine with output step 1. *)
Definition two_calls (a : script_ap float) (T1 tol1 T2 tol2 : float) : outcome float FState :=
  s0 <- fresh a 1 ;;
  s1 <- simulate_to 20 20 s0 T1 tol1 ;;
  simulate_to 20 20 s1 T2 tol2.

(** A single [simulate_to(T2)] on a fresh engine with output step 1. *)
Definition one_call (a : script_ap float) (T2 tol2 : float) : outcome float FState :=
  s0 <- fresh a 1 ;;
  simulate_to 20 20 s0 T2 tol2.

(** [run_f16_sim(nominal_state, 5, ap, step=1/30, integrator_str='euler')]
    with the quiet autopilot. *)
Definition nominal_run : outcome float (sim_result float nat) :=
  run_f16_sim (P := euler_internals float) 200 10 tol_default
    nominal_state 5 quiet_ap (1 / 30) false "euler" false true.

(** What the end-to-end scenario looks at: the status, the number of
    samples, and whether the last time is within the tolerance of 5. *)
Definition summary (res : sim_result float nat) : string * nat * nat * nat * bool :=
  (res_status res, List.length (res_times res), List.length (res_states res),
   List.length (res_modes res),
   PrimFloat.ltb (PrimFloat.abs (last (res_times res) 0 - 5)) tol_default).

Local Close Scope float_scope.

(** ** A concrete scenario in exact arithmetic (whole ticks) *)

Abbreviation ZState := (F16SimState Z (script_ap Z) nat (euler_internals Z)).

Definition nominal_state_Z : list Z :=
  [500; 0; 0; 0; 0; 0; 0; 0; 0; 0; 0; 1000; 9]%Z.

Definition quiet_ap_Z : script_ap Z :=
  {| sa_mode := 0; sa_switch_time := None; sa_finish_time := None;
     sa_u_refs := [0; 0; 0; 0]%Z |}.

(** A fresh engine with output step 2. *)
Definition fresh_Z : outcome Z ZState :=
  F16SimState_init nominal_state_Z quiet_ap_Z 2%Z false "euler" false true.

(** ** Vocabulary for further properties of the engine *)

(** A strict comparison excludes the converse non-strict one (true of
    exact arithmetic and of binary64). *)
Class StrictLaw (R : Type) `{Scalar R} : Prop := {
  ltb_not_leb : forall a b : R, ltb a b = true -> leb b a = false
}.

Section MoreSpec.

Context {R : Type} {SR : Scalar R}.
Context {AP Mode : Type} {APC : Autopilot R AP Mode} {AB : Aerobench R AP}.
Context {P : Type} {SV : Solvers R P}.

Local Abbreviation State := (F16SimState R AP Mode P).

(** The times a call with horizon [tmax] records after the time [prev]:
    each one is the sample time computed from its predecessor, and the
    test [next_step_time >= tmax + tol] was false for it. *)
Fixpoint sample_chain (step0 tmax tol prev : R) (new : list R) : Prop :=
  match new with
  | [] => True
  | tn :: rest =>
      tn = next_sample_time prev step0 tmax tol /\
      geb tn (add tmax tol) = false /\
      sample_chain step0 tmax tol tn rest
  end.

(** The five extended lists of [s'] are those of [s] with more entries
    at the end. *)
Definition keeps_extended (s s' : State) : Prop :=
  (exists l, xd_list s' = xd_list s ++ l) /\
  (exists l, u_list s' = u_list s ++ l) /\
  (exists l, Nz_list s' = Nz_list s ++ l) /\
  (exists l, ps_list s' = ps_list s ++ l) /\
  (exists l, Ny_r_list s' = Ny_r_list s ++ l).

(** No strategy sets the status ['autopilot finished'] by itself; only
    the engine does. *)
Definition strategies_never_autopilot_finished : Prop :=
  (forall cls der (i i' : Integrator R P),
     strat_step (solver_of cls) der i = Done i' ->
     status i' <> "autopilot finished"%string) /\
  (forall cls der t0 x0 tb kw (i' : Integrator R P),
     strat_new (solver_of cls) der t0 x0 tb kw = Done i' ->
     status i' <> "autopilot finished"%string).

(** The initial state the constructor records: [initial_state] padded
    with zeros up to [num_vars] components when it is shorter. *)
Definition initial_x0 (initial_state : list R) (num_vars : nat) : list R :=
  if Nat.ltb (List.length initial_state) num_vars
  then initial_state ++ repeat (of_Z 0) (num_vars - List.length initial_state)
  else initial_state.

(** The quantity [der_func] complains about in a sub-state, and its
    value: the three checks in the order of the source (angle of attack,
    airspeed, altitude). *)
Definition first_failure (state : list R) : option (quantity * R) :=
  match nth_error state StateIndex_ALPHA, nth_error state StateIndex_VEL,
        nth_error state StateIndex_ALT with
  | Some a, Some v, Some h =>
      if negb (alpha_in_range a) then Some (Q_alpha, a)
      else if negb (vel_in_range v) then Some (Q_velocity, v)
      else if negb (alt_in_range h) then Some (Q_altitude, h)
      else None
  | _, _, _ => None
  end.

(** The outputs of the dynamics model for the aircraft [0 .. n-1] of a
    concatenated state. *)
Definition f16_outputs (ap0 : AP) (ms : string) (v2 : bool) (t0 : R)
    (fs u : list R) (nv n : nat) : list (f16_output R) :=
  map (fun j => controlled_f16 t0 (sub_state fs nv j) (sub_u_ref u j) ap0 ms v2)
      (seq 0 n).

(** A list of per-aircraft values as [get_extended_states] returns it:
    the value itself for one aircraft, the tuple otherwise. *)
Definition packed {A} (l : list A) : per_aircraft A :=
  match l with
  | [a] => Single a
  | _ => Tuple l
  end.

End MoreSpec.

(** ** More concrete scenarios *)

(** An autopilot that declares completion from time 2 on. *)
Definition finishing_ap : script_ap float :=
  {| sa_mode := 0; sa_switch_time := None; sa_finish_time := Some 2%float;
     sa_u_refs := [0; 0; 0; 0]%float |}.

(** [run_f16_sim(nominal_state, 2, ap, step=1, extended_states=True,
    integrator_str='euler')] with the quiet autopilot. *)
Definition short_run : outcome float (sim_result float nat) :=
  run_f16_sim (P := euler_internals float) 20 20 tol_default
    nominal_state 2%float quiet_ap 1%float true "euler" false true.
(** * Properties of the derivative evaluator *)

Unset Implicit Arguments.

Section DynamicsFacts.

Context {R : Type} {SR : Scalar R}.
Context {AP Mode : Type} {APC : Autopilot R AP Mode} {AB : Aerobench R AP}.

Lemma tbind_tlift_Done {A B} (a : A) (k : A -> traced R B) :
  tbind (tlift (Done a)) k = k a.
Proof. unfold tbind, tlift; simpl. destruct (k a); reflexivity. Qed.

Lemma tbind_tlift_Raised {A B} (e : exn R) (k : A -> traced R B) :
  tbind (tlift (Raised e)) k = ([], Raised e).
Proof. reflexivity. Qed.

Lemma tbind_tcall {A B} (ev : event R) (a : A) (k : A -> traced R B) :
  tbind (tcall ev a) k = (ev :: fst (k a), snd (k a)).
Proof. reflexivity. Qed.

Lemma tbind_tret_r {A B} (m : traced R A) (f : A -> B) :
  tbind m (fun a => tret (f a)) =
  (fst m, match snd m with Done a => Done (f a) | Raised e => Raised e
                         | OutOfFuel => OutOfFuel end).
Proof.
  unfold tbind, tret. destruct m as [tr [a|e|]]; simpl; try reflexivity.
  now rewrite app_nil_r.
Qed.

(** What one pass of the per-aircraft loop does: either the sub-state is
    inside the envelope, the dynamics model is called once and its
    derivative returned; or it is outside, nothing is called, and the
    pass raises. *)
Lemma der_func_aircraft_cases ap ms v2 t fs u nv i :
  let st := sub_state fs nv i in
  let ur := sub_u_ref u i in
  (envelope_spec st = true /\
   der_func_aircraft ap ms v2 t fs u nv i =
     ([Ev_controlled_f16 t st ur], Done (out_xd (controlled_f16 t st ur ap ms v2)))) \/
  (envelope_spec st = false /\
   fst (der_func_aircraft ap ms v2 t fs u nv i) = [] /\
   ((exists q v, snd (der_func_aircraft ap ms v2 t fs u nv i) = Raised (SimModelError q v)
                 /\ violates st q v) \/
    (snd (der_func_aircraft ap ms v2 t fs u nv i) = Raised IndexError /\
     ~ (StateIndex_ALPHA < List.length st /\ StateIndex_VEL < List.length st /\
        StateIndex_ALT < List.length st)))).
Proof.
  intros st ur. unfold der_func_aircraft, envelope_spec, py_index.
  fold (sub_state fs nv i). fold (sub_u_ref u i). fold st. fold ur.
  destruct (nth_error st StateIndex_ALPHA) as [a|] eqn:Ea.
  2:{ right. rewrite tbind_tlift_Raised. repeat split; try reflexivity.
      right. split; [reflexivity|]. intros (Hl & _).
      apply nth_error_None in Ea. lia. }
  rewrite tbind_tlift_Done. unfold check_alpha. fold (alpha_in_range a).
  destruct (alpha_in_range a) eqn:Hra; simpl negb; cbv iota.
  2:{ right. rewrite tbind_tlift_Raised.
      destruct (nth_error st StateIndex_VEL), (nth_error st StateIndex_ALT);
        (split; [reflexivity|split; [reflexivity|]]);
        left; exists Q_alpha, a; (split; [reflexivity|split; assumption]). }
  rewrite tbind_tlift_Done.
  destruct (nth_error st StateIndex_VEL) as [v|] eqn:Ev.
  2:{ right. rewrite tbind_tlift_Raised. repeat split; try reflexivity.
      right. split; [reflexivity|]. intros (_ & Hl & _).
      apply nth_error_None in Ev. lia. }
  rewrite tbind_tlift_Done. unfold check_vel. fold (vel_in_range v).
  destruct (vel_in_range v) eqn:Hrv; simpl negb; cbv iota.
  2:{ right. rewrite tbind_tlift_Raised.
      destruct (nth_error st StateIndex_ALT);
        (split; [reflexivity|split; [reflexivity|]]);
        left; exists Q_velocity, v; (split; [reflexivity|split; assumption]). }
  rewrite tbind_tlift_Done.
  destruct (nth_error st StateIndex_ALT) as [h|] eqn:Eh.
  2:{ right. rewrite tbind_tlift_Raised. repeat split; try reflexivity.
      right. split; [reflexivity|]. intros (_ & _ & Hl).
      apply nth_error_None in Eh. lia. }
  rewrite tbind_tlift_Done. unfold check_alt. fold (alt_in_range h).
  destruct (alt_in_range h) eqn:Hrh; simpl negb; cbv iota.
  2:{ right. rewrite tbind_tlift_Raised.
      split; [reflexivity|split; [reflexivity|]].
      left; exists Q_altitude, h; (split; [reflexivity|split; assumption]). }
  rewrite tbind_tlift_Done. left. split; [reflexivity|].
  rewrite tbind_tcall. reflexivity.
Qed.

Lemma tbind_Done {A B} tr (a : A) (k : A -> traced R B) :
  tbind (tr, Done a) k = (tr ++ fst (k a), snd (k a)).
Proof. reflexivity. Qed.

Lemma tbind_Raised {A B} tr (e : exn R) (k : A -> traced R B) :
  tbind (tr, Raised e) k = (tr, Raised e).
Proof. reflexivity. Qed.

(** The whole per-aircraft loop, started at aircraft [i] for [m]
    aircraft: it either goes through, calling the dynamics model once per
    aircraft in order, or stops at the first sub-state outside the
    envelope, having called the model for the aircraft before it only. *)
Lemma tfor_aircraft ap ms v2 t fs u nv m : forall i,
  ((forall j, i <= j < i + m -> envelope_spec (sub_state fs nv j) = true) /\
   tfor (der_func_aircraft ap ms v2 t fs u nv) i m =
     (map (ev_f16 t fs u nv) (seq i m), Done (map (xd_f16 ap ms v2 t fs u nv) (seq i m)))) \/
  (exists k, k < m /\
     (forall j, i <= j < i + k -> envelope_spec (sub_state fs nv j) = true) /\
     envelope_spec (sub_state fs nv (i + k)) = false /\
     fst (tfor (der_func_aircraft ap ms v2 t fs u nv) i m) = map (ev_f16 t fs u nv) (seq i k) /\
     ((exists q v, snd (tfor (der_func_aircraft ap ms v2 t fs u nv) i m)
                     = Raised (SimModelError q v) /\
                   violates (sub_state fs nv (i + k)) q v) \/
      (snd (tfor (der_func_aircraft ap ms v2 t fs u nv) i m) = Raised IndexError /\
       ~ indexable fs nv (i + k)))).
Proof.
  induction m as [|m IH]; intros i.
  - left. split; [intros j Hj; lia | reflexivity].
  - cbn [tfor].
    destruct (der_func_aircraft_cases ap ms v2 t fs u nv i) as [[Hin Hb]|(Hout & Htr & Hres)].
    + rewrite Hb, tbind_Done, tbind_tret_r. cbn [fst snd app].
      destruct (IH (S i)) as [[Hall Heq]|(k & Hk & Hall & Hbad & Htr' & Hres')].
      * left. rewrite Heq. cbn [fst snd]. split; [|reflexivity].
        intros j Hj. destruct (Nat.eq_dec j i) as [->|Hne]; [assumption|].
        apply Hall. lia.
      * right. exists (S k).
        replace (i + S k) with (S i + k) by lia.
        split; [lia|]. split.
        { intros j Hj. destruct (Nat.eq_dec j i) as [->|Hne]; [assumption|].
          apply Hall. lia. }
        split; [assumption|]. split.
        { cbn [seq map]. rewrite Htr'. reflexivity. }
        destruct Hres' as [(q & v & Hr & Hv)|(Hr & Hv)].
        -- left. exists q, v. rewrite Hr. split; [reflexivity|assumption].
        -- right. rewrite Hr. split; [reflexivity|assumption].
    + right. exists 0. replace (i + 0) with i by lia.
      split; [lia|]. split; [intros j Hj; lia|]. split; [assumption|].
      destruct (der_func_aircraft ap ms v2 t fs u nv i) as [tr res].
      cbn [fst snd] in Htr, Hres. subst tr.
      destruct Hres as [(q & v & Hr & Hv)|(Hr & Hv)]; rewrite Hr, tbind_Raised;
        cbn [fst snd seq map]; (split; [reflexivity|]).
      * left. exists q, v. split; [reflexivity|assumption].
      * right. split; [reflexivity|assumption].
Qed.

Lemma der_func_traced_eq ap ms v2 t fs :
  der_func_traced ap ms v2 t fs =
    (Ev_get_checked_u_ref t fs :: fst (der_func_rest ap ms v2 t fs (get_checked_u_ref ap t fs)),
     snd (der_func_rest ap ms v2 t fs (get_checked_u_ref ap t fs))).
Proof. reflexivity. Qed.

(** [der_func] once the aircraft-count check has been passed. *)
Lemma der_func_rest_checked ap ms v2 t fs u :
  num_vars_of ap <> 0 ->
  List.length fs / num_vars_of ap = List.length u / 4 ->
  der_func_rest ap ms v2 t fs u =
    (fst (tfor (der_func_aircraft ap ms v2 t fs u (num_vars_of ap)) 0 (List.length u / 4)),
     match snd (tfor (der_func_aircraft ap ms v2 t fs u (num_vars_of ap)) 0
                  (List.length u / 4)) with
     | Done xds => Done (List.concat xds)
     | Raised e => Raised e
     | OutOfFuel => OutOfFuel
     end).
Proof.
  intros Hnv Hcount. unfold der_func_rest.
  change (py_floordiv (List.length u) 4) with (@Done R nat (List.length u / 4)).
  rewrite tbind_tlift_Done.
  unfold py_floordiv. destruct (num_vars_of ap) as [|nv'] eqn:Env; [congruence|].
  rewrite tbind_tlift_Done. rewrite Hcount, Nat.eqb_refl.
  unfold py_assert. rewrite tbind_tlift_Done.
  rewrite tbind_tret_r. reflexivity.
Qed.

(** [der_func] when the aircraft-count check fails. *)
Lemma der_func_rest_count_mismatch ap ms v2 t fs u :
  num_vars_of ap <> 0 ->
  List.length fs / num_vars_of ap <> List.length u / 4 ->
  der_func_rest ap ms v2 t fs u = ([], Raised (AssertionError "aircraft count")).
Proof.
  intros Hnv Hcount. unfold der_func_rest.
  change (py_floordiv (List.length u) 4) with (@Done R nat (List.length u / 4)).
  rewrite tbind_tlift_Done.
  unfold py_floordiv. destruct (num_vars_of ap) as [|nv'] eqn:Env; [congruence|].
  rewrite tbind_tlift_Done.
  apply Nat.eqb_neq in Hcount. rewrite Hcount. reflexivity.
Qed.


Lemma sub_state_length (fs : list R) nv i :
  nv * (i + 1) <= List.length fs -> List.length (sub_state fs nv i) = nv.
Proof.
  intros H. unfold sub_state, slice.
  rewrite length_firstn, length_skipn. nia.
Qed.

Lemma slice_app_l {A} (l l' : list A) a b :
  b <= List.length l -> slice (l ++ l') a b = slice l a b.
Proof.
  intros Hb. unfold slice.
  rewrite skipn_app, firstn_app, length_skipn.
  replace (b - a - (List.length l - a)) with 0 by lia.
  rewrite firstn_O, app_nil_r. reflexivity.
Qed.

Lemma tfor_ext {A} (b1 b2 : nat -> traced R A) m : forall i,
  (forall j, i <= j < i + m -> b1 j = b2 j) ->
  tfor b1 i m = tfor b2 i m.
Proof.
  induction m as [|m IH]; intros i Hb; [reflexivity|].
  cbn [tfor]. rewrite (Hb i) by lia. rewrite (IH (S i)); [reflexivity|].
  intros j Hj. apply Hb. lia.
Qed.

(** Full sub-states: the aircraft the floor division counts. *)
Lemma sub_state_full (fs : list R) nv i :
  nv <> 0 -> i < List.length fs / nv -> List.length (sub_state fs nv i) = nv.
Proof.
  intros Hnv Hi. apply sub_state_length.
  pose proof (Nat.Div0.mul_div_le (List.length fs) nv) as Hle.
  nia.
Qed.

(** The outcome of [der_func] when the aircraft-count check passes and
    the layout indices exist: the first sub-state outside the envelope
    decides. *)
Lemma der_func_outcome ap ms v2 t fs :
  layout_ok (num_vars_of ap) ->
  List.length (get_checked_u_ref ap t fs) / 4 = List.length fs / num_vars_of ap ->
  ((forall j, j < List.length fs / num_vars_of ap ->
      envelope_spec (sub_state fs (num_vars_of ap) j) = true) /\
   make_der_func ms v2 ap t fs =
     Done (List.concat (map (xd_f16 ap ms v2 t fs (get_checked_u_ref ap t fs) (num_vars_of ap))
                            (seq 0 (List.length fs / num_vars_of ap))))) \/
  (exists k, k < List.length fs / num_vars_of ap /\
     (forall j, j < k -> envelope_spec (sub_state fs (num_vars_of ap) j) = true) /\
     envelope_spec (sub_state fs (num_vars_of ap) k) = false /\
     exists q v, make_der_func ms v2 ap t fs = Raised (SimModelError q v) /\
                 violates (sub_state fs (num_vars_of ap) k) q v).
Proof.
  intros (Ha & Hv & Hh) Hcount.
  assert (Hnv : num_vars_of ap <> 0) by lia.
  unfold make_der_func. rewrite der_func_traced_eq. cbn [snd].
  rewrite der_func_rest_checked by (try assumption; now symmetry).
  cbn [snd]. rewrite Hcount.
  destruct (tfor_aircraft ap ms v2 t fs (get_checked_u_ref ap t fs) (num_vars_of ap)
              (List.length fs / num_vars_of ap) 0)
    as [[Hall Heq]|(k & Hk & Hall & Hbad & Htr & Hres)].
  - left. rewrite Heq. cbn [snd]. split; [|reflexivity].
    intros j Hj. apply Hall. lia.
  - right. exists k. cbn [Nat.add] in *. split; [assumption|].
    split; [intros j Hj; apply Hall; lia|]. split; [assumption|].
    destruct Hres as [(q & v & Hr & Hq)|(Hr & Hidx)].
    + exists q, v. rewrite Hr. split; [reflexivity|assumption].
    + exfalso. apply Hidx. unfold indexable.
      rewrite sub_state_full by assumption. repeat split; assumption.
Qed.

Lemma violates_outside st q v : violates st q v -> envelope_spec st = false.
Proof.
  unfold violates, envelope_spec.
  destruct q; intros (Hn & Hr); rewrite Hn;
    destruct (nth_error st StateIndex_ALPHA), (nth_error st StateIndex_VEL),
             (nth_error st StateIndex_ALT); try reflexivity;
    try (injection Hn as ->); rewrite Hr; rewrite ?andb_false_r; reflexivity.
Qed.



(** C10.  The aircraft-count check of the derivative evaluator compares
    floor quotients only: it fails exactly when
    [len(full_state) // num_vars] differs from [len(u_refs) // 4].  So a
    state with up to [num_vars - 1] extra trailing components passes it
    whenever the state without them does, and the evaluator returns what
    it returns without them: the trailing components are ignored. *)
Theorem der_func_count_check_floor ap ms v2 t (good extra : list R) n :
  num_vars_of ap <> 0 ->
  List.length good = n * num_vars_of ap ->
  List.length extra < num_vars_of ap ->
  get_checked_u_ref ap t (good ++ extra) = get_checked_u_ref ap t good ->
  (forall fs, make_der_func ms v2 ap t fs = Raised (AssertionError "aircraft count") <->
              List.length fs / num_vars_of ap <> List.length (get_checked_u_ref ap t fs) / 4) /\
  List.length (good ++ extra) / num_vars_of ap = n /\
  make_der_func ms v2 ap t (good ++ extra) = make_der_func ms v2 ap t good.
Proof.
  intros Hnv Hgood Hextra Hu.
  assert (Hq : List.length (good ++ extra) / num_vars_of ap = n).
  { rewrite length_app, Hgood. rewrite Nat.div_add_l by assumption.
    rewrite Nat.div_small by assumption. lia. }
  assert (Hq' : List.length good / num_vars_of ap = n).
  { rewrite Hgood. apply Nat.div_mul. assumption. }
  split; [|split; [exact Hq|]].
  - intros fs. unfold make_der_func. rewrite der_func_traced_eq. cbn [snd].
    destruct (Nat.eq_dec (List.length fs / num_vars_of ap)
                         (List.length (get_checked_u_ref ap t fs) / 4)) as [Hc|Hc].
    + rewrite der_func_rest_checked by assumption. cbn [snd].
      split; [|intros H; contradiction].
      destruct (tfor_aircraft ap ms v2 t fs (get_checked_u_ref ap t fs) (num_vars_of ap)
                  (List.length (get_checked_u_ref ap t fs) / 4) 0)
        as [[_ Heq]|(k & _ & _ & _ & _ & [(q & v & Hr & _)|(Hr & _)])];
        [rewrite Heq|rewrite Hr|rewrite Hr]; cbn [snd]; discriminate.
    + rewrite der_func_rest_count_mismatch by assumption. cbn [snd].
      split; [intros _; assumption|reflexivity].
  - unfold make_der_func. rewrite !der_func_traced_eq. cbn [snd]. rewrite Hu.
    set (u := get_checked_u_ref ap t good).
    destruct (Nat.eq_dec n (List.length u / 4)) as [Hc|Hc].
    + rewrite !der_func_rest_checked by (try assumption; congruence).
      cbn [snd]. rewrite <- Hc.
      rewrite (tfor_ext (der_func_aircraft ap ms v2 t (good ++ extra) u (num_vars_of ap))
                        (der_func_aircraft ap ms v2 t good u (num_vars_of ap))).
      * reflexivity.
      * intros j Hj. unfold der_func_aircraft.
        rewrite slice_app_l; [reflexivity|]. rewrite Hgood. nia.
    + rewrite !der_func_rest_count_mismatch by (try assumption; congruence).
      reflexivity.
Qed.

End DynamicsFacts.

(** * Properties of the engine *)

Section EngineFacts.

Context {R : Type} {SR : Scalar R}.
Context {AP Mode : Type} {APC : Autopilot R AP Mode} {AB : Aerobench R AP}.
Context {P : Type} {SV : Solvers R P}.

Local Abbreviation State := (F16SimState R AP Mode P).

Lemma bind_Done_inv {A B} (m : outcome R A) (k : A -> outcome R B) b :
  bind m k = Done b -> exists a, m = Done a /\ k a = Done b.
Proof. destruct m; simpl; intros H; try discriminate. eauto. Qed.

(** One pass of the loop is one of the three cases of [pass_of]. *)
Lemma simulate_body_pass k tmax tol (s : State) r :
  simulate_body k tmax tol s = Done r <-> pass_of k tmax tol s r.
Proof.
  split.
  - unfold simulate_body. intros H.
    apply bind_Done_inv in H as (last_t & Hl & H).
    destruct (geb (next_sample_time last_t (step s) tmax tol) (add tmax tol)) eqn:Hg.
    { injection H as <-. eapply pass_covered; eassumption. }
    apply bind_Done_inv in H as (integ & Ha & H).
    destruct (String.eqb (status integ) "running") eqn:Hs; cbn [negb] in H.
    2:{ injection H as <-. eapply pass_halted; eassumption. }
    apply bind_Done_inv in H as (xn & Hx & H).
    apply bind_Done_inv in H as (s3 & He & H).
    eapply pass_sampled; eassumption.
  - intros H. unfold simulate_body.
    destruct H as [last_t Hl Hg|last_t integ Hl Hg Ha Hs|last_t integ xn s3 r Hl Hg Ha Hs Hx He Hf];
      rewrite Hl; cbn [bind]; rewrite Hg; try reflexivity;
      rewrite Ha; cbn [bind]; rewrite Hs; cbn [negb]; try reflexivity.
    rewrite Hx. cbn [bind]. cbv zeta.
    change (ap (set_integrator s integ)) with (ap s).
    rewrite He. cbn [bind]. exact Hf.
Qed.

Lemma record_extended_inv (s s3 : State) tn xn :
  record_extended s tn xn = Done s3 ->
  (extended_states s = false /\ s3 = s) \/
  (extended_states s = true /\ exists e, s3 = append_extended s e).
Proof.
  unfold record_extended. destruct (extended_states s).
  - intros H. apply bind_Done_inv in H as (e & _ & H). injection H as <-.
    right. split; [reflexivity|]. exists e. reflexivity.
  - intros H. injection H as <-. left. split; reflexivity.
Qed.

Lemma finish_or_reinit_inv (s3 : State) mc tn xn r :
  finish_or_reinit s3 mc tn xn = Done r ->
  (is_finished (ap s3) tn xn = true /\
   r = Break (set_integrator s3 (set_status (integrator s3) "autopilot finished"))) \/
  (is_finished (ap s3) tn xn = false /\ mc = true /\
   exists integ', strat_new (solver_of (integrator_class s3)) (der_func_of s3)
                    tn xn None (integrator_kwargs s3) = Done integ' /\
                  r = Continue (set_integrator s3 integ')) \/
  (is_finished (ap s3) tn xn = false /\ mc = false /\ r = Continue s3).
Proof.
  unfold finish_or_reinit. destruct (is_finished (ap s3) tn xn).
  - intros H. injection H as <-. left. split; reflexivity.
  - destruct mc.
    + intros H. apply bind_Done_inv in H as (i' & Hn & H). injection H as <-.
      right; left. repeat split. exists i'. split; [assumption|reflexivity].
    + intros H. injection H as <-. right; right. repeat split.
Qed.

(** What a pass that records a sample leaves behind: the state before
    it, with the stepped integrator, the sample appended (and the
    extended values when they are tracked), and the integrator possibly
    marked finished or replaced. *)
Lemma pass_sampled_state (s s3 : State) integ tn xn ap' mc r :
  record_extended (append_sample (set_integrator s integ) tn xn ap') tn xn = Done s3 ->
  finish_or_reinit s3 mc tn xn = Done r ->
  exists i',
    state_of r = set_integrator s3 i' /\
    ap s3 = ap' /\
    times s3 = times s ++ [tn] /\ states s3 = states s ++ [xn] /\
    modes s3 = modes s ++ [mode ap'] /\
    step s3 = step s /\ cur_sim_time s3 = cur_sim_time s /\
    extended_states s3 = extended_states s /\
    integrator_class s3 = integrator_class s /\
    integrator_kwargs s3 = integrator_kwargs s /\
    model_str s3 = model_str s /\ v2_integrators s3 = v2_integrators s /\
    print_errors s3 = print_errors s /\
    integrator s3 = integ /\
    ((extended_states s = false /\
      xd_list s3 = xd_list s /\ u_list s3 = u_list s /\ Nz_list s3 = Nz_list s /\
      ps_list s3 = ps_list s /\ Ny_r_list s3 = Ny_r_list s) \/
     (extended_states s = true /\ exists e,
      xd_list s3 = xd_list s ++ [ext_xd e] /\ u_list s3 = u_list s ++ [ext_u e] /\
      Nz_list s3 = Nz_list s ++ [ext_Nz e] /\ ps_list s3 = ps_list s ++ [ext_ps e] /\
      Ny_r_list s3 = Ny_r_list s ++ [ext_Ny_r e])).
Proof.
  intros He Hf.
  assert (Hi : exists i', state_of r = set_integrator s3 i').
  { apply finish_or_reinit_inv in Hf
      as [(_ & ->)|[(_ & _ & i' & _ & ->)|(_ & _ & ->)]]; cbn [state_of]; eauto.
    exists (integrator s3). destruct s3; reflexivity. }
  destruct Hi as (i' & Hi). exists i'. split; [exact Hi|].
  apply record_extended_inv in He as [(Hx & ->)|(Hx & e & ->)]; cbn in Hx |- *.
  - repeat (split; [reflexivity|]). left. repeat split; assumption.
  - repeat (split; [reflexivity|]). right. split; [assumption|].
    exists e. repeat split.
Qed.

(** The effect of one pass on the engine. *)
Lemma pass_effect k tmax tol (s : State) r :
  pass_of k tmax tol s r ->
  same_config s (state_of r) /\
  ((same_trajectory s (state_of r) /\ ap (state_of r) = ap s /\ exists s', r = Break s') \/
   (exists last_t xn,
      py_last (R:=R) (times s) = Done last_t /\
      one_more_sample s (state_of r) (next_sample_time last_t (step s) tmax tol) xn)).
Proof.
  intros [last_t Hl Hg|last_t integ Hl Hg Ha Hs|last_t integ xn s3 r' Hl Hg Ha Hs Hx He Hf].
  - cbn [state_of]. split; [repeat split|]. left. split; [repeat split|]. eauto.
  - cbn [state_of]. split; [repeat split|]. left. split; [repeat split|]. eauto.
  - destruct (pass_sampled_state _ _ _ _ _ _ _ _ He Hf)
      as (i' & -> & Hap & Ht & Hxs & Hm & Hst & Hc & Hes & Hic & Hik & Hms & Hv2 & Hpe & Hi & Hext).
    split; [repeat split; assumption|]. right.
    exists last_t, xn. split; [assumption|].
    split; [exact Ht|]. split; [exact Hxs|]. split; [eauto|]. exact Hext.
Qed.

Lemma same_config_refl (s : State) : same_config s s.
Proof. repeat split. Qed.

Lemma same_config_trans (s1 s2 s3 : State) :
  same_config s1 s2 -> same_config s2 s3 -> same_config s1 s3.
Proof.
  unfold same_config. intros (A1 & A2 & A3 & A4 & A5 & A6 & A7 & A8)
    (B1 & B2 & B3 & B4 & B5 & B6 & B7 & B8).
  repeat split; congruence.
Qed.

Lemma keeps_samples_refl (s : State) : keeps_samples s s.
Proof. exists [], [], []. now rewrite !app_nil_r. Qed.

Lemma keeps_samples_trans (s1 s2 s3 : State) :
  keeps_samples s1 s2 -> keeps_samples s2 s3 -> keeps_samples s1 s3.
Proof.
  intros (ts & xs & ms & Ht & Hx & Hm) (ts' & xs' & ms' & Ht' & Hx' & Hm').
  exists (ts ++ ts'), (xs ++ xs'), (ms ++ ms').
  rewrite Ht', Hx', Hm', Ht, Hx, Hm, !app_assoc. repeat split.
Qed.

Lemma pass_keeps_samples k tmax tol (s : State) r :
  pass_of k tmax tol s r -> keeps_samples s (state_of r).
Proof.
  intros H. apply pass_effect in H as (_ & [((Ht & Hx & Hm & _) & _)|(l & xn & _ & Ht & Hx & (m & Hm) & _)]).
  - exists [], [], []. now rewrite Ht, Hx, Hm, !app_nil_r.
  - exists [next_sample_time l (step s) tmax tol], [xn], [m]. repeat split; assumption.
Qed.

(** A pass keeps the lists aligned. *)
Lemma pass_shape k tmax tol (s : State) r :
  pass_of k tmax tol s r -> shape_ok s -> shape_ok (state_of r).
Proof.
  intros H (H1 & H2 & H3).
  apply pass_effect in H as ((_ & _ & Hes & _) & [((Ht & Hx & Hm & Ha & Hb & Hc & Hd & He) & _)
                         |(l & xn & _ & Ht & Hx & (m & Hm) & Hext)]).
  - unfold shape_ok. rewrite Ht, Hx, Hm, Ha, Hb, Hc, Hd, He, Hes. repeat split; tauto.
  - unfold shape_ok. rewrite Ht, Hx, Hm, Hes, !length_app. cbn [List.length].
    split; [lia|]. split; [lia|].
    intros Hon.
    destruct Hext as [(Hoff & _)|(_ & e & -> & -> & -> & -> & ->)]; [congruence|].
    rewrite !length_app. cbn [List.length].
    destruct (H3 Hon) as (A & B & C & D & E). repeat split; lia.
Qed.

(** The loop, by induction on its fuel: whatever every pass preserves,
    the loop preserves. *)
Lemma simulate_loop_ind (Inv : State -> State -> Prop) k tmax tol :
  (forall s, Inv s s) ->
  (forall s r s', pass_of k tmax tol s r -> Inv (state_of r) s' -> Inv s s') ->
  forall fuel (s s' : State),
    simulate_loop fuel k tmax tol s = Done s' -> Inv s s'.
Proof.
  intros Hrefl Hstep. induction fuel as [|fuel IH]; intros s s' H; [discriminate|].
  cbn [simulate_loop] in H. apply bind_Done_inv in H as (r & Hb & H).
  apply simulate_body_pass in Hb.
  destruct r as [s1|s1].
  - injection H as <-. eapply Hstep; [eassumption|]. apply Hrefl.
  - eapply Hstep; [eassumption|]. cbn [state_of]. apply IH. assumption.
Qed.

Lemma simulate_loop_config fuel k tmax tol (s s' : State) :
  simulate_loop fuel k tmax tol s = Done s' -> same_config s s'.
Proof.
  apply (simulate_loop_ind same_config); [apply same_config_refl|].
  intros s0 r s1 Hp H. eapply same_config_trans; [|eassumption].
  apply pass_effect in Hp. tauto.
Qed.

Lemma simulate_loop_keeps_samples fuel k tmax tol (s s' : State) :
  simulate_loop fuel k tmax tol s = Done s' -> keeps_samples s s'.
Proof.
  apply (simulate_loop_ind keeps_samples); [apply keeps_samples_refl|].
  intros s0 r s1 Hp H. eapply keeps_samples_trans; [|eassumption].
  eapply pass_keeps_samples; eassumption.
Qed.

Lemma simulate_loop_shape fuel k tmax tol (s s' : State) :
  simulate_loop fuel k tmax tol s = Done s' -> shape_ok s -> shape_ok s'.
Proof.
  apply (simulate_loop_ind (fun s s' => shape_ok s -> shape_ok s')); [tauto|].
  intros s0 r s1 Hp H Hs. apply H. eapply pass_shape; eassumption.
Qed.

(** [simulate_to] is its two assertions followed by the loop. *)
Lemma simulate_to_inv fuel k (s s' : State) tmax tol :
  simulate_to fuel k s tmax tol = Done s' ->
  geb tmax (cur_sim_time s) = true /\
  String.eqb (status (integrator s)) "running" = true /\
  simulate_loop fuel k tmax tol (set_cur_sim_time s tmax) = Done s'.
Proof.
  unfold simulate_to, py_assert.
  destruct (geb tmax (cur_sim_time s)); cbn [bind]; [|discriminate].
  cbn [integrator set_cur_sim_time].
  destruct (String.eqb (status (integrator s)) "running"); cbn [bind]; [|discriminate].
  intros H. repeat split. assumption.
Qed.

Lemma py_last_snoc {A} (l : list A) (a : A) : py_last (R:=R) (l ++ [a]) = Done a.
Proof. unfold py_last. rewrite rev_app_distr. reflexivity. Qed.



Lemma starts_at_zero_app (l : list R) (a : R) rest :
  l = of_Z 0 :: rest -> exists rest', l ++ [a] = of_Z 0 :: rest'.
Proof. intros ->. eexists. reflexivity. Qed.

Lemma pass_starts_at_zero k tmax tol (s : State) r :
  pass_of k tmax tol s r -> starts_at_zero s -> starts_at_zero (state_of r).
Proof.
  intros H (rest & Hz).
  apply pass_effect in H as (_ & [((Ht & _) & _)|(l & xn & _ & Ht & _)]);
    unfold starts_at_zero; rewrite Ht.
  - eauto.
  - eapply starts_at_zero_app; eassumption.
Qed.

Lemma simulate_loop_starts_at_zero fuel k tmax tol (s s' : State) :
  simulate_loop fuel k tmax tol s = Done s' -> starts_at_zero s -> starts_at_zero s'.
Proof.
  apply (simulate_loop_ind (fun s s' => starts_at_zero s -> starts_at_zero s')); [tauto|].
  intros s0 r s1 Hp H Hs. apply H. eapply pass_starts_at_zero; eassumption.
Qed.

(** The constructor records exactly one sample, at time 0. *)
Lemma F16SimState_init_trajectory init ap0 step0 ext istr v2 pe (s : State) :
  F16SimState_init init ap0 step0 ext istr v2 pe = Done s ->
  times s = [of_Z 0] /\ cur_sim_time s = of_Z 0 /\ step s = step0 /\
  extended_states s = ext /\
  (exists x0, states s = [x0]) /\ (exists m, modes s = [m]) /\
  (ext = true -> exists e, xd_list s = [ext_xd e] /\ u_list s = [ext_u e] /\
                           Nz_list s = [ext_Nz e] /\ ps_list s = [ext_ps e] /\
                           Ny_r_list s = [ext_Ny_r e]).
Proof.
  unfold F16SimState_init. intros H.
  apply bind_Done_inv in H as (_ & _ & H).
  apply bind_Done_inv in H as (lists & Hext & H).
  destruct lists as [[[[xd0 u0] Nz0] ps0] Ny0].
  apply bind_Done_inv in H as ([cls kw] & _ & H).
  apply bind_Done_inv in H as (integ & _ & H).
  injection H as <-. cbn.
  repeat (split; [reflexivity|]). split; [eauto|]. split; [eauto|].
  intros ->. apply bind_Done_inv in Hext as (e & _ & He).
  injection He as <- <- <- <- <-. exists e. repeat split.
Qed.

Lemma F16SimState_init_shape init ap0 step0 ext istr v2 pe (s : State) :
  F16SimState_init init ap0 step0 ext istr v2 pe = Done s ->
  shape_ok s /\ starts_at_zero s.
Proof.
  intros H. apply F16SimState_init_trajectory in H
    as (Ht & _ & _ & He & (x0 & Hx) & (m & Hm) & Hext).
  split.
  - unfold shape_ok. rewrite Ht, Hx, Hm. split; [reflexivity|]. split; [reflexivity|].
    rewrite He. intros Hon. destruct (Hext Hon) as (e & -> & -> & -> & -> & ->).
    repeat split.
  - exists []. assumption.
Qed.




Lemma set_cur_sim_time_same (s : State) : set_cur_sim_time s (cur_sim_time s) = s.
Proof. destruct s; reflexivity. Qed.

(** A loop that ends with a running integrator ended because the horizon
    was covered: one more pass from its final state breaks at once. *)
Lemma simulate_loop_running_covered fuel k tmax tol (s s' : State) :
  simulate_loop fuel k tmax tol s = Done s' ->
  status (integrator s') = "running"%string ->
  forall k', simulate_body k' tmax tol s' = Done (Break s').
Proof.
  revert s s'. induction fuel as [|fuel IH]; intros s s' H Hrun k'; [discriminate|].
  cbn [simulate_loop] in H. apply bind_Done_inv in H as (r & Hb & H).
  destruct r as [s1|s1].
  - injection H as <-. apply simulate_body_pass in Hb.
    inversion Hb as [l Hl Hg|l integ Hl Hg Ha Hs Heq|l integ xn s3 r' Hl Hg Ha Hs Hx He Hf Heq].
    + apply simulate_body_pass. eapply pass_covered; eassumption.
    + exfalso. rewrite <- Heq in Hrun. cbn in Hrun. rewrite Hrun in Hs. discriminate.
    + exfalso. apply finish_or_reinit_inv in Hf
        as [(_ & Hr)|[(_ & _ & i' & _ & Hr)|(_ & _ & Hr)]]; try discriminate.
      injection Hr as Hr. rewrite Hr in Hrun. cbn in Hrun. discriminate.
  - eapply IH; eassumption.
Qed.

(** C7.  [simulate_to(T)] called again, with the same [T] and tolerance,
    right after a [simulate_to(T)] that left the integrator running,
    changes nothing: it returns the very same engine state, so no sample
    is appended to any list and the status is unchanged. *)
Theorem simulate_to_idempotent (CL : @ComparisonLaws R SR) fuel k (s s1 : State) T tol :
  simulate_to fuel k s T tol = Done s1 ->
  status (integrator s1) = "running"%string ->
  forall fuel' k', simulate_to (S fuel') k' s1 T tol = Done s1.
Proof.
  intros H Hrun fuel' k'.
  apply simulate_to_inv in H as (Hge & _ & H).
  pose proof (simulate_loop_config _ _ _ _ _ _ H) as (_ & Hcur & _).
  cbn [cur_sim_time set_cur_sim_time] in Hcur.
  assert (Hsame : set_cur_sim_time s1 T = s1).
  { rewrite <- Hcur. apply set_cur_sim_time_same. }
  unfold simulate_to. rewrite Hsame, Hcur.
  unfold geb in *. rewrite (leb_refl_r _ _ Hge). cbn [py_assert bind].
  rewrite Hrun, String.eqb_refl.
  cbn [py_assert bind simulate_loop].
  rewrite (simulate_loop_running_covered _ _ _ _ _ _ H Hrun k'). reflexivity.
Qed.

Lemma snoc_inj {A} (l l' : list A) (a b : A) : l ++ [a] = l' ++ [b] -> l = l' /\ a = b.
Proof. intros H. apply app_inj_tail in H. exact H. Qed.

Lemma snoc_neq {A} (l : list A) (a : A) : l ++ [a] <> l.
Proof.
  intros H. apply (f_equal (@List.length A)) in H.
  rewrite length_app in H. cbn [List.length] in H. lia.
Qed.

(** A pass that changes [times] is the sampling case of [pass_of]. *)
Lemma pass_recorded k tmax tol (s : State) r :
  pass_of k tmax tol s r ->
  times (state_of r) <> times s ->
  exists last_t integ xn s3,
    py_last (R:=R) (times s) = Done last_t /\
    advance k (integrator_class s) (der_func_of s)
      (next_sample_time last_t (step s) tmax tol) tol (integrator s) = Done integ /\
    String.eqb (status integ) "running" = true /\
    sample_state (integrator_class s) integ
      (next_sample_time last_t (step s) tmax tol) tol = Done xn /\
    record_extended
      (append_sample (set_integrator s integ)
         (next_sample_time last_t (step s) tmax tol) xn
         (snd (advance_discrete_mode (ap s) (next_sample_time last_t (step s) tmax tol) xn)))
      (next_sample_time last_t (step s) tmax tol) xn = Done s3 /\
    finish_or_reinit s3
      (fst (advance_discrete_mode (ap s) (next_sample_time last_t (step s) tmax tol) xn))
      (next_sample_time last_t (step s) tmax tol) xn = Done r.
Proof.
  intros [l Hl Hg|l integ Hl Hg Ha Hs|l integ xn s3 r' Hl Hg Ha Hs Hx He Hf] Hne.
  - exfalso. apply Hne. reflexivity.
  - exfalso. apply Hne. reflexivity.
  - exists l, integ, xn, s3. repeat split; assumption.
Qed.


(** C9.  When a pass records the sample [(tn, xn)], the autopilot's
    mode-advance reports a change there and the autopilot does not
    declare completion, the pass goes on with a new integrator: the one
    the constructor of the same strategy class returns for the same
    keyword arguments, the derivative function (closing over the advanced
    autopilot), initial time [tn] and initial state [xn].  The class and
    the keyword arguments stay as they were. *)
Theorem mode_change_reseeds_integrator k tmax tol (s : State) r tn xn :
  simulate_body k tmax tol s = Done r ->
  times (state_of r) = times s ++ [tn] ->
  states (state_of r) = states s ++ [xn] ->
  fst (advance_discrete_mode (ap s) tn xn) = true ->
  is_finished (snd (advance_discrete_mode (ap s) tn xn)) tn xn = false ->
  exists s',
    r = Continue s' /\
    strat_new (solver_of (integrator_class s))
      (make_der_func (model_str s) (v2_integrators s)
         (snd (advance_discrete_mode (ap s) tn xn)))
      tn xn None (integrator_kwargs s) = Done (integrator s') /\
    integrator_class s' = integrator_class s /\
    integrator_kwargs s' = integrator_kwargs s.
Proof.
  intros Hb Ht Hx Hmc Hfin. apply simulate_body_pass in Hb.
  assert (Hne : times (state_of r) <> times s) by (rewrite Ht; apply snoc_neq).
  destruct (pass_recorded _ _ _ _ _ Hb Hne) as (l & integ & xn' & s3 & Hl & Ha & Hs & Hsx & He & Hf).
  destruct (pass_sampled_state _ _ _ _ _ _ _ _ He Hf)
    as (i' & Hr & Hap & Ht' & Hx' & _ & _ & _ & _ & Hic & Hik & Hms & Hv2 & _).
  rewrite Hr in Ht, Hx. cbn [times states set_integrator] in Ht, Hx.
  rewrite Ht' in Ht. rewrite Hx' in Hx.
  apply snoc_inj in Ht as (_ & Htn). apply snoc_inj in Hx as (_ & Hxn).
  rewrite Htn in *. subst xn'.
  apply finish_or_reinit_inv in Hf as [(Hfin' & _)|[(_ & _ & i2 & Hnew & ->)|(_ & Hmc' & _)]].
  - rewrite Hap in Hfin'. congruence.
  - exists (set_integrator s3 i2). split; [reflexivity|].
    cbn [integrator integrator_class integrator_kwargs set_integrator].
    unfold der_func_of in Hnew. rewrite Hic, Hik, Hms, Hv2, Hap in Hnew.
    repeat split; assumption.
  - congruence.
Qed.





(** The loop never reads [cur_sim_time]. *)
Lemma record_extended_cur (s : State) c tn xn :
  record_extended (set_cur_sim_time s c) tn xn =
  omap (fun s' => set_cur_sim_time s' c) (record_extended s tn xn).
Proof.
  unfold record_extended. cbn [extended_states ap model_str v2_integrators set_cur_sim_time].
  destruct (extended_states s); [|reflexivity].
  destruct (get_extended_states (ap s) tn xn (model_str s) (v2_integrators s)); reflexivity.
Qed.

Lemma finish_or_reinit_cur (s : State) c mc tn xn :
  finish_or_reinit (set_cur_sim_time s c) mc tn xn =
  omap (shift_cur c) (finish_or_reinit s mc tn xn).
Proof.
  unfold finish_or_reinit.
  cbn [ap integrator integrator_class integrator_kwargs set_cur_sim_time].
  change (der_func_of (set_cur_sim_time s c)) with (der_func_of s).
  destruct (is_finished (ap s) tn xn); [reflexivity|].
  destruct mc; [|reflexivity].
  destruct (strat_new (solver_of (integrator_class s)) (der_func_of s) tn xn None
              (integrator_kwargs s)); reflexivity.
Qed.

Lemma simulate_body_cur k tmax tol (s : State) c :
  simulate_body k tmax tol (set_cur_sim_time s c) =
  omap (shift_cur c) (simulate_body k tmax tol s).
Proof.
  unfold simulate_body.
  cbn [times step integrator integrator_class set_cur_sim_time].
  change (der_func_of (set_cur_sim_time s c)) with (der_func_of s).
  destruct (py_last (R:=R) (times s)) as [l| |]; cbn [bind omap]; try reflexivity.
  destruct (geb (next_sample_time l (step s) tmax tol) (add tmax tol)); [reflexivity|].
  destruct (advance k (integrator_class s) (der_func_of s)
              (next_sample_time l (step s) tmax tol) tol (integrator s)) as [i| |];
    cbn [bind omap]; try reflexivity.
  destruct (String.eqb (status i) "running"); cbn [negb]; [|reflexivity].
  destruct (sample_state (integrator_class s) i (next_sample_time l (step s) tmax tol) tol)
    as [xn| |]; cbn [bind omap]; try reflexivity.
  cbv zeta.
  change (ap (set_integrator (set_cur_sim_time s c) i)) with (ap s).
  change (ap (set_integrator s i)) with (ap s).
  set (mc := advance_discrete_mode (ap s) (next_sample_time l (step s) tmax tol) xn).
  change (append_sample (set_integrator (set_cur_sim_time s c) i)
            (next_sample_time l (step s) tmax tol) xn (snd mc))
    with (set_cur_sim_time
            (append_sample (set_integrator s i)
               (next_sample_time l (step s) tmax tol) xn (snd mc)) c).
  rewrite record_extended_cur.
  destruct (record_extended
              (append_sample (set_integrator s i) (next_sample_time l (step s) tmax tol)
                 xn (snd mc)) (next_sample_time l (step s) tmax tol) xn) as [s3| |];
    cbn [bind omap]; try reflexivity.
  apply finish_or_reinit_cur.
Qed.

Lemma simulate_loop_fuel_mono k tmax tol fuel : forall (s s' : State) extra,
  simulate_loop fuel k tmax tol s = Done s' ->
  simulate_loop (fuel + extra) k tmax tol s = Done s'.
Proof.
  induction fuel as [|fuel IH]; intros s s' extra H; [discriminate|].
  cbn [simulate_loop Nat.add] in *.
  destruct (simulate_body k tmax tol s) as [[s1|s1]| |]; cbn [bind] in *;
    try discriminate; [assumption|].
  apply IH. assumption.
Qed.

(** A pass of the first call that records an on-grid sample not after
    [T1] is also a pass of a call with the later horizon [T2]. *)
Lemma mirror_pass (CL : @ComparisonLaws R SR) k T1 T2 tol (s s' : State) l tn :
  simulate_body k T1 tol s = Done (Continue s') ->
  py_last (R:=R) (times s) = Done l ->
  times s' = times s ++ [tn] ->
  tn = add l (step s) ->
  leb tn T1 = true ->
  ltb T1 T2 = true ->
  ltb T1 (add T2 tol) = true ->
  simulate_body k T2 tol s = Done (Continue s').
Proof.
  intros Hb Hl Ht Htn Hle H12 H12t.
  apply simulate_body_pass in Hb. apply simulate_body_pass.
  assert (Hne : times (state_of (Continue s')) <> times s)
    by (cbn [state_of]; rewrite Ht; apply snoc_neq).
  destruct (pass_recorded _ _ _ _ _ Hb Hne)
    as (l' & integ & xn & s3 & Hl' & Ha & Hs & Hx & He & Hf).
  rewrite Hl in Hl'. injection Hl' as <-.
  destruct (pass_sampled_state _ _ _ _ _ _ _ _ He Hf) as (i' & Hr & _ & Ht' & _).
  cbn [state_of] in Hr. rewrite Hr in Ht. cbn [times set_integrator] in Ht.
  rewrite Ht' in Ht. apply snoc_inj in Ht as (_ & Hn1).
  assert (Hn2 : next_sample_time l (step s) T2 tol = tn).
  { unfold next_sample_time, gtb. rewrite <- Htn.
    rewrite (leb_ltb_not_ltb _ _ _ Hle H12), andb_false_r. reflexivity. }
  rewrite Hn1 in *.
  eapply pass_sampled with (integ := integ) (xn := xn) (s3 := s3);
    rewrite ?Hn2; try eassumption.
  unfold geb. apply (leb_ltb_not_leb _ _ _ Hle H12t).
Qed.

Lemma on_grid_cons_inv (l0 : list R) (a : R) (new new' : list R) :
  l0 ++ new = (l0 ++ [a]) ++ new' -> new = a :: new'.
Proof.
  rewrite <- app_assoc. intros H. apply app_inv_head in H. exact H.
Qed.

(** The loop of a first call to [T1] whose samples are on the grid,
    followed by a loop to [T2], is one loop to [T2]. *)
Lemma mirror_loop (CL : @ComparisonLaws R SR) k T1 T2 tol c :
  ltb T1 T2 = true ->
  ltb T1 (add T2 tol) = true ->
  forall f1 (s s1 : State) l new f2 s2,
    simulate_loop f1 k T1 tol s = Done s1 ->
    status (integrator s1) = "running"%string ->
    py_last (R:=R) (times s) = Done l ->
    times s1 = times s ++ new ->
    on_grid (step s) T1 l new ->
    simulate_loop f2 k T2 tol (set_cur_sim_time s1 c) = Done s2 ->
    simulate_loop (f1 + f2) k T2 tol (set_cur_sim_time s c) = Done s2.
Proof.
  intros H12 H12t. induction f1 as [|f1 IH]; intros s s1 l new f2 s2 H1 Hrun Hl Ht Hgrid H2;
    [discriminate|].
  cbn [simulate_loop] in H1. apply bind_Done_inv in H1 as (r & Hb & H1).
  destruct r as [sb|sc].
  - injection H1 as <-.
    pose proof Hb as Hp. apply simulate_body_pass in Hp.
    inversion Hp as [l' Hl' Hg Heq|l' integ Hl' Hg Ha Hs Heq
                    |l' integ xn s3 r' Hl' Hg Ha Hs Hx He Hf Heq].
    + subst sb. rewrite Nat.add_comm. apply simulate_loop_fuel_mono. exact H2.
    + exfalso. rewrite <- Heq in Hrun. cbn in Hrun. rewrite Hrun in Hs. discriminate.
    + exfalso. apply finish_or_reinit_inv in Hf
        as [(_ & Hr)|[(_ & _ & i' & _ & Hr)|(_ & _ & Hr)]]; try discriminate.
      injection Hr as Hr. rewrite Hr in Hrun. cbn in Hrun. discriminate.
  - pose proof Hb as Hp. apply simulate_body_pass in Hp.
    pose proof (simulate_loop_keeps_samples _ _ _ _ _ _ H1) as (ts & _ & _ & Hts & _).
    pose proof (pass_effect _ _ _ _ _ Hp) as ((Hstep & _) & [(_ & _ & sb & Hbr)|(l' & xn & Hl' & Hone)]);
      [discriminate|].
    cbn [state_of] in *. rewrite Hl in Hl'. injection Hl' as <-.
    destruct Hone as (Htc & _).
    rewrite Htc in Hts. rewrite Ht in Hts.
    apply on_grid_cons_inv in Hts. subst new.
    cbn [on_grid] in Hgrid. destruct Hgrid as (Htn & Hle & Hgrid).
    cbn [Nat.add simulate_loop].
    rewrite simulate_body_cur.
    rewrite (mirror_pass CL k T1 T2 tol s sc l _ Hb Hl Htc Htn Hle H12 H12t).
    cbn [omap shift_cur bind].
    eapply IH; try eassumption.
    + rewrite Htc. apply py_last_snoc.
    + rewrite Ht, Htc, <- app_assoc. reflexivity.
    + rewrite Hstep. exact Hgrid.
Qed.

(** C3, as amended.  When the first call [simulate_to(T1)] takes no
    short last step -- every sample it records lies one [step] after the
    previous one and not after [T1] -- then [simulate_to(T1)] followed by
    [simulate_to(T2)], [T1 < T2], leaves the engine in exactly the state
    a single [simulate_to(T2)] leaves it in: the two trajectories are
    equal, and so are their parts up to [T1]. *)
Theorem incremental_equivalence (CL : @ComparisonLaws R SR)
    f1 f2 k (s0 s1 s2 : State) T1 T2 tol l0 new :
  simulate_to f1 k s0 T1 tol = Done s1 ->
  simulate_to f2 k s1 T2 tol = Done s2 ->
  py_last (R:=R) (times s0) = Done l0 ->
  times s1 = times s0 ++ new ->
  on_grid (step s0) T1 l0 new ->
  ltb T1 T2 = true ->
  ltb T1 (add T2 tol) = true ->
  forall extra, simulate_to (f1 + f2 + extra) k s0 T2 tol = Done s2.
Proof.
  intros H1 H2 Hl Ht Hgrid H12 H12t extra.
  apply simulate_to_inv in H1 as (Hge1 & Hrun0 & H1).
  apply simulate_to_inv in H2 as (_ & Hrun1 & H2).
  apply String.eqb_eq in Hrun1.
  unfold simulate_to. unfold geb in *.
  rewrite (leb_ltb_leb _ _ _ Hge1 H12). cbn [py_assert bind integrator set_cur_sim_time].
  rewrite Hrun0. cbn [bind].
  apply simulate_loop_fuel_mono.
  replace (set_cur_sim_time s0 T2) with (set_cur_sim_time (set_cur_sim_time s0 T1) T2)
    by reflexivity.
  eapply mirror_loop; try eassumption.
Qed.

(** The integrator [advance] returns is the one it was given or the
    result of a [step()]. *)
Lemma advance_result fuel cls der nst tol : forall (i i' : Integrator R P),
  advance fuel cls der nst tol i = Done i' ->
  i' = i \/ exists j, strat_step (solver_of cls) der j = Done i'.
Proof.
  induction fuel as [|fuel IH]; intros i i' H; cbn [advance] in H.
  - destruct (geb nst (add (t i) tol)); [discriminate|]. injection H as <-. now left.
  - destruct (geb nst (add (t i) tol)); [|injection H as <-; now left].
    apply bind_Done_inv in H as (i1 & Hs & H).
    destruct (String.eqb (status i1) "running"); cbn [negb] in H.
    + apply IH in H as [->|H]; right; eauto.
    + injection H as <-. right. eauto.
Qed.

(** The engine never reports [finished]: it only ever assigns
    ['autopilot finished'], and leaves the loop by [break] when the
    horizon is covered. *)
Lemma simulate_to_never_finished fuel k (s s' : State) tmax tol :
  strategies_never_finished (SV:=SV) ->
  simulate_to fuel k s tmax tol = Done s' ->
  status (integrator s') <> "finished"%string.
Proof.
  intros (Hstep & Hnew) H.
  apply simulate_to_inv in H as (_ & Hrun & H).
  apply String.eqb_eq in Hrun.
  assert (H0 : status (integrator (set_cur_sim_time s tmax)) <> "finished"%string)
    by (cbn; rewrite Hrun; discriminate).
  revert H0. revert H.
  apply (simulate_loop_ind (fun s s' =>
    status (integrator s) <> "finished"%string ->
    status (integrator s') <> "finished"%string)); [tauto|].
  intros s1 r s2 Hp IH H1. apply IH. clear IH.
  destruct Hp as [l Hl Hg|l integ Hl Hg Ha Hs|l integ xn s3 r Hl Hg Ha Hs Hx He Hf].
  - exact H1.
  - cbn. apply advance_result in Ha as [->|(j & Hj)]; [exact H1|]. eapply Hstep; eassumption.
  - destruct (pass_sampled_state _ _ _ _ _ _ _ _ He Hf)
      as (i' & Hr & _ & _ & _ & _ & _ & _ & _ & _ & _ & _ & _ & _ & Hi & _).
    apply String.eqb_eq in Hs.
    apply finish_or_reinit_inv in Hf
      as [(_ & ->)|[(_ & _ & i2 & Hn & ->)|(_ & _ & ->)]]; cbn.
    + discriminate.
    + eapply Hnew; eassumption.
    + rewrite Hi, Hs. discriminate.
Qed.

End EngineFacts.

(** * The comparison laws hold of binary64 and of the integers *)

Ltac key_fwd :=
  intros _; do 2 eexists; split; [reflexivity|split; [reflexivity|]];
  unfold key_lt; simpl; first [reflexivity | lia].

Ltac key_bwd :=
  let a := fresh in let b := fresh in
  let Ha := fresh in let Hb := fresh in let Hl := fresh in
  intros (a & b & Ha & Hb & Hl); try discriminate;
  injection Ha as <-; injection Hb as <-;
  unfold key_lt in Hl; simpl in Hl;
  first [reflexivity | lia | (injection Hl; intros; lia)].

Ltac key_iff := split; [ first [ discriminate | key_fwd ] | key_bwd ].

Lemma SFcompare_key f g :
  (SFcompare f g = Some Lt <->
   exists a b, SFkey f = Some a /\ SFkey g = Some b /\ key_lt a b) /\
  (SFcompare f g = Some Eq <->
   exists a b, SFkey f = Some a /\ SFkey g = Some b /\ a = b).
Proof.
  unfold SFcompare.
  destruct f as [s1|s1| |s1 m1 e1], g as [s2|s2| |s2 m2 e2];
    try destruct s1; try destruct s2; simpl.
  all: try (split; key_iff; fail).
  all: rewrite ?Pos.compare_cont_spec; simpl; unfold CompOpp;
       destruct (Z.compare_spec e1 e2); destruct (Pos.compare_spec m1 m2); subst.
  all: split; key_iff.
Qed.

Lemma float_ltb_key (x y : float) :
  PrimFloat.ltb x y = true <->
  exists a b, SFkey (Prim2SF x) = Some a /\ SFkey (Prim2SF y) = Some b /\ key_lt a b.
Proof.
  rewrite FloatAxioms.ltb_spec. unfold SFltb.
  destruct (SFcompare_key (Prim2SF x) (Prim2SF y)) as (Hlt & _).
  rewrite <- Hlt.
  destruct (SFcompare (Prim2SF x) (Prim2SF y)) as [[| |]|]; split; congruence.
Qed.

Lemma float_leb_key (x y : float) :
  PrimFloat.leb x y = true <->
  exists a b, SFkey (Prim2SF x) = Some a /\ SFkey (Prim2SF y) = Some b /\
              (key_lt a b \/ a = b).
Proof.
  rewrite FloatAxioms.leb_spec. unfold SFleb.
  destruct (SFcompare_key (Prim2SF x) (Prim2SF y)) as (Hlt & Heq).
  split.
  - destruct (SFcompare (Prim2SF x) (Prim2SF y)) as [[| |]|] eqn:E; try discriminate; intros _.
    + destruct (proj1 Heq eq_refl) as (a & b & Ha & Hb & Hab). eauto 6.
    + destruct (proj1 Hlt eq_refl) as (a & b & Ha & Hb & Hab). eauto 6.
  - intros (a & b & Ha & Hb & [Hab|Hab]).
    + rewrite (proj2 Hlt) by eauto. reflexivity.
    + rewrite (proj2 Heq) by eauto. reflexivity.
Qed.

Lemma key_lt_trans a b c : key_lt a b -> key_lt b c -> key_lt a c.
Proof.
  destruct a as [[a1 a2] a3], b as [[b1 b2] b3], c as [[c1 c2] c3].
  unfold key_lt; simpl. lia.
Qed.

Lemma key_lt_irrefl a : ~ key_lt a a.
Proof. destruct a as [[a1 a2] a3]. unfold key_lt; simpl. lia. Qed.

#[export] Instance float_comparison_laws : @ComparisonLaws float float_scalar.
Proof.
  split; cbn [leb ltb float_scalar].
  - intros a b H. apply float_leb_key in H as (ka & kb & _ & Hb & _).
    apply float_leb_key. exists kb, kb. auto.
  - intros a b c Hab Hbc.
    destruct (PrimFloat.ltb c a) eqn:Hca; [exfalso|reflexivity].
    apply float_leb_key in Hab as (ka & kb & Ha & Hb & Hab).
    apply float_ltb_key in Hbc as (kb' & kc & Hb' & Hc & Hbc).
    apply float_ltb_key in Hca as (kc' & ka' & Hc' & Ha' & Hca).
    assert (kb' = kb) by congruence. assert (kc' = kc) by congruence.
    assert (ka' = ka) by congruence. subst.
    apply (key_lt_irrefl kb).
    destruct Hab as [Hab| ->].
    + eauto using key_lt_trans.
    + eauto using key_lt_trans.
  - intros a b c Hab Hbc.
    destruct (PrimFloat.leb c a) eqn:Hca; [exfalso|reflexivity].
    apply float_leb_key in Hab as (ka & kb & Ha & Hb & Hab).
    apply float_ltb_key in Hbc as (kb' & kc & Hb' & Hc & Hbc).
    apply float_leb_key in Hca as (kc' & ka' & Hc' & Ha' & Hca).
    assert (kb' = kb) by congruence. assert (kc' = kc) by congruence.
    assert (ka' = ka) by congruence. subst.
    apply (key_lt_irrefl kb).
    destruct Hab as [Hab| ->]; destruct Hca as [Hca| ->]; eauto using key_lt_trans.
  - intros a b c Hab Hbc.
    apply float_leb_key in Hab as (ka & kb & Ha & Hb & Hab).
    apply float_ltb_key in Hbc as (kb' & kc & Hb' & Hc & Hbc).
    assert (kb' = kb) by congruence. subst.
    apply float_leb_key. exists ka, kc. split; [assumption|]. split; [assumption|].
    left. destruct Hab as [Hab| ->]; eauto using key_lt_trans.
Qed.

#[export] Instance Z_comparison_laws : @ComparisonLaws Z Z_scalar.
Proof.
  split; cbn [leb ltb Z_scalar]; intros; lia.
Qed.

#[export] Instance Z_exact_order : @ExactOrder Z Z_scalar.
Proof.
  split; cbn [leb ltb add sub absR of_Z Z_scalar]; intros; lia.
Qed.

(** * The engine on concrete inputs *)

Local Open Scope float_scope.

(** Solves [lhs = ?e] by computing [lhs]. *)
Ltac run_eq :=
  match goal with
  | |- ?lhs = _ =>
      let v := eval vm_compute in lhs in
      transitivity v; [vm_compute; reflexivity | reflexivity]
  end.

(** The Euler strategy follows the contract of [step()]: a derivative
    function that raises makes the status [failed], and nothing is
    raised. *)
Lemma Euler_step_on_error {R} `{Scalar R} der (i : Integrator R (euler_internals R)) e :
  der (t i) (x i) = Raised e ->
  Euler_step der i = Done (set_status i "failed").
Proof. intros He. unfold Euler_step. rewrite He. reflexivity. Qed.


Lemma euler_never_finished {R} `{Scalar R} : strategies_never_finished (SV := euler_solvers).
Proof.
  split.
  - intros cls der i i'. cbn [solver_of euler_solvers strat_step Euler_strategy].
    unfold Euler_step. destruct (der (t i) (x i)); intros Hi; try discriminate;
      injection Hi as <-; cbn; discriminate.
  - intros cls der t0 x0 tb kw i'. cbn [solver_of euler_solvers strat_new Euler_strategy].
    unfold Euler_new. destruct (kwarg "step" kw); intros Hi; try discriminate.
    injection Hi as <-. cbn. discriminate.
Qed.

(** C2.  The end-to-end scenario on the engine: nominal initial state,
    output step 1/30, an autopilot that never changes mode nor declares
    completion, target time 5.  The run records 151 samples and its last
    time is within 1e-7 of 5, but the status it reports is [running],
    not [finished]. *)
Theorem run_f16_sim_nominal_status :
  omap summary nominal_run = Done ("running"%string, 151%nat, 151%nat, 151%nat, true).
Proof. vm_compute. reflexivity. Qed.



(** C3, counterexample.  With step 1, [simulate_to(2.5)] then
    [simulate_to(4)] records the times 0, 1, 2, 2.5, 3.5, 4, while a
    single [simulate_to(4)] records 0, 1, 2, 3, 4: up to time 2.5 the
    first trajectory has four samples and the second three. *)
Lemma incremental_equivalence_fails_off_grid :
  omap (fun s : FState => map (fun smp => fst (fst smp)) (upto 2.5 s))
       (two_calls quiet_ap 2.5 tol_default 4 tol_default)
  = Done [0; 1; 2; 2.5] /\
  omap (fun s : FState => map (fun smp => fst (fst smp)) (upto 2.5 s))
       (one_call quiet_ap 4 tol_default)
  = Done [0; 1; 2] /\
  omap (upto 2.5) (two_calls quiet_ap 2.5 tol_default 4 tol_default)
  <> omap (upto 2.5) (one_call quiet_ap 4 tol_default).
Proof.
  split; [vm_compute; reflexivity|]. split; [vm_compute; reflexivity|].
  vm_compute. discriminate.
Qed.


(** C3 on a run: with step 1, [simulate_to(2)] records the on-grid times
    1 and 2; followed by [simulate_to(4)] it leaves the state a single
    [simulate_to(4)] leaves. *)
Lemma incremental_equivalence_witness :
  exists s0 s1 s2 : FState,
    fresh quiet_ap 1 = Done s0 /\
    simulate_to 20 20 s0 2 tol_default = Done s1 /\
    simulate_to 20 20 s1 4 tol_default = Done s2 /\
    times s1 = [0; 1; 2] /\
    times s2 = [0; 1; 2; 3; 4] /\
    forall extra, simulate_to (20 + 20 + extra) 20 s0 4 tol_default = Done s2.
Proof.
  eexists. eexists. eexists.
  split; [run_eq|]. split; [run_eq|]. split; [run_eq|].
  split; [vm_compute; reflexivity|]. split; [vm_compute; reflexivity|].
  eapply (incremental_equivalence float_comparison_laws 20 20 20 _ _ _ 2 4 tol_default 0 [1; 2]).
  - vm_compute. reflexivity.
  - vm_compute. reflexivity.
  - vm_compute. reflexivity.
  - vm_compute. reflexivity.
  - vm_compute. repeat split.
  - vm_compute. reflexivity.
  - vm_compute. reflexivity.
Defined.


(** C7 on a run: [simulate_to(2)] twice. *)
Lemma simulate_to_idempotent_witness :
  exists s0 s1 : FState,
    fresh quiet_ap 1 = Done s0 /\
    simulate_to 20 20 s0 2 tol_default = Done s1 /\
    times s1 = [0; 1; 2] /\
    forall fuel' k', simulate_to (S fuel') k' s1 2 tol_default = Done s1.
Proof.
  eexists. eexists.
  match goal with
  | |- _ = Done ?s0 /\ _ = Done ?s1 /\ _ =>
      split; [run_eq|]; split; [run_eq|]; split; [vm_compute; reflexivity|];
      apply (simulate_to_idempotent float_comparison_laws 20 20 s0 s1 2 tol_default)
  end.
  - vm_compute. reflexivity.
  - vm_compute. reflexivity.
Defined.


(** C9 on a pass: the autopilot changes mode at the sample at time 1. *)
Lemma mode_change_reseeds_integrator_witness :
  exists (s0 : FState) r,
    fresh switching_ap 1 = Done s0 /\
    simulate_body 20 5 tol_default s0 = Done r /\
    exists s',
      r = Continue s' /\
      strat_new (solver_of (integrator_class s0))
        (make_der_func (model_str s0) (v2_integrators s0)
           (snd (advance_discrete_mode (ap s0) 1 nominal16)))
        1 nominal16 None (integrator_kwargs s0) = Done (integrator s') /\
      integrator_class s' = integrator_class s0 /\
      integrator_kwargs s' = integrator_kwargs s0.
Proof.
  eexists. eexists.
  split; [run_eq|]. split; [run_eq|].
  apply (mode_change_reseeds_integrator 20 5 tol_default).
  - vm_compute. reflexivity.
  - vm_compute. reflexivity.
  - vm_compute. reflexivity.
  - vm_compute. reflexivity.
  - vm_compute. reflexivity.
Defined.

(** C10 on a state of sixteen components followed by three more. *)
Lemma der_func_count_check_floor_witness :
  (forall fs, make_der_func "morelli" false quiet_ap 0 fs
                = Raised (AssertionError "aircraft count") <->
              (List.length fs / num_vars_of quiet_ap
                 <> List.length (get_checked_u_ref quiet_ap 0%float fs) / 4)%nat) /\
  (List.length (nominal16 ++ trailing3) / num_vars_of quiet_ap)%nat = 1%nat /\
  make_der_func "morelli" false quiet_ap 0 (nominal16 ++ trailing3)
    = make_der_func "morelli" false quiet_ap 0 nominal16.
Proof.
  apply (der_func_count_check_floor quiet_ap "morelli" false 0 nominal16 trailing3 1%nat).
  - vm_compute. discriminate.
  - vm_compute. reflexivity.
  - vm_compute. lia.
  - reflexivity.
Defined.

Local Close Scope float_scope.


(** * Further properties of the engine *)

Section EngineMore.

Context {R : Type} {SR : Scalar R}.
Context {AP Mode : Type} {APC : Autopilot R AP Mode} {AB : Aerobench R AP}.
Context {P : Type} {SV : Solvers R P}.

Local Abbreviation State := (F16SimState R AP Mode P).

(** The sample time of a pass that records one. *)
Lemma pass_sample_time k tmax tol (s : State) r tn :
  pass_of k tmax tol s r ->
  times (state_of r) = times s ++ [tn] ->
  exists l integ,
    py_last (R:=R) (times s) = Done l /\
    tn = next_sample_time l (step s) tmax tol /\
    geb tn (add tmax tol) = false /\
    advance k (integrator_class s) (der_func_of s) tn tol (integrator s) = Done integ /\
    String.eqb (status integ) "running" = true.
Proof.
  intros [l Hl Hg|l integ Hl Hg Ha Hs|l integ xn s3 r' Hl Hg Ha Hs Hx He Hf] Ht.
  - exfalso. symmetry in Ht. apply (snoc_neq _ _ Ht).
  - exfalso. symmetry in Ht. apply (snoc_neq _ _ Ht).
  - destruct (pass_sampled_state _ _ _ _ _ _ _ _ He Hf) as (i' & Hr & _ & Ht' & _).
    rewrite Hr in Ht. cbn [times set_integrator] in Ht. rewrite Ht' in Ht.
    apply snoc_inj in Ht as (_ & <-).
    exists l, integ. repeat split; assumption.
Qed.

Lemma keeps_extended_refl (s : State) : keeps_extended s s.
Proof. repeat split; exists []; now rewrite app_nil_r. Qed.

Lemma keeps_extended_trans (s1 s2 s3 : State) :
  keeps_extended s1 s2 -> keeps_extended s2 s3 -> keeps_extended s1 s3.
Proof.
  intros ((a & Ha) & (b & Hb) & (c & Hc) & (d & Hd) & (e & He))
         ((a' & Ha') & (b' & Hb') & (c' & Hc') & (d' & Hd') & (e' & He')).
  repeat split; eexists.
  - rewrite Ha', Ha, <- app_assoc. reflexivity.
  - rewrite Hb', Hb, <- app_assoc. reflexivity.
  - rewrite Hc', Hc, <- app_assoc. reflexivity.
  - rewrite Hd', Hd, <- app_assoc. reflexivity.
  - rewrite He', He, <- app_assoc. reflexivity.
Qed.

Lemma pass_keeps_extended k tmax tol (s : State) r :
  pass_of k tmax tol s r -> keeps_extended s (state_of r).
Proof.
  intros H. apply pass_effect in H
    as (_ & [((_ & _ & _ & Ha & Hb & Hc & Hd & He) & _)|(l & xn & _ & _ & _ & _ & Hext)]).
  - unfold keeps_extended. rewrite Ha, Hb, Hc, Hd, He.
    repeat split; exists []; now rewrite app_nil_r.
  - destruct Hext as [(_ & Ha & Hb & Hc & Hd & He)|(_ & e & Ha & Hb & Hc & Hd & He)];
      unfold keeps_extended; rewrite Ha, Hb, Hc, Hd, He.
    + repeat split; exists []; now rewrite app_nil_r.
    + repeat split; eexists; reflexivity.
Qed.

(** X4.  History is append-only.  A [simulate_to] call that returns
    keeps every entry of [times], [states], [modes] and of the five
    extended lists at its place and only adds entries at the end; it
    sets [cur_sim_time] to [tmax] and changes neither the step, the
    extended-state flag, the strategy class nor its keyword arguments. *)
Theorem simulate_to_appends_only fuel k (s s' : State) tmax tol :
  simulate_to fuel k s tmax tol = Done s' ->
  keeps_samples s s' /\ keeps_extended s s' /\
  cur_sim_time s' = tmax /\ step s' = step s /\
  extended_states s' = extended_states s /\
  integrator_class s' = integrator_class s /\
  integrator_kwargs s' = integrator_kwargs s.
Proof.
  intros H. apply simulate_to_inv in H as (_ & _ & H).
  pose proof (simulate_loop_config _ _ _ _ _ _ H) as (Hst & Hcur & Hes & Hic & Hik & _).
  pose proof (simulate_loop_keeps_samples _ _ _ _ _ _ H) as Hk.
  assert (Hx : keeps_extended (set_cur_sim_time s tmax) s').
  { revert H. apply (simulate_loop_ind keeps_extended); [apply keeps_extended_refl|].
    intros s0 r s1 Hp Hi. eapply keeps_extended_trans; [|eassumption].
    eapply pass_keeps_extended; eassumption. }
  repeat split; try assumption.
  - destruct Hx as (Ha & _). exact Ha.
  - destruct Hx as (_ & Hb & _). exact Hb.
  - destruct Hx as (_ & _ & Hc & _). exact Hc.
  - destruct Hx as (_ & _ & _ & Hd & _). exact Hd.
  - destruct Hx as (_ & _ & _ & _ & He). exact He.
Qed.

Lemma simulate_loop_chain k tmax tol fuel : forall (s s' : State) l,
  simulate_loop fuel k tmax tol s = Done s' ->
  py_last (R:=R) (times s) = Done l ->
  exists new, times s' = times s ++ new /\ sample_chain (step s) tmax tol l new.
Proof.
  induction fuel as [|fuel IH]; intros s s' l H Hl; [discriminate|].
  cbn [simulate_loop] in H. apply bind_Done_inv in H as (r & Hb & H).
  apply simulate_body_pass in Hb.
  pose proof (pass_effect _ _ _ _ _ Hb) as ((Hstep & _) & Hcase).
  destruct Hcase as [((Ht & _) & _ & sb & ->)|(l' & xn & Hl' & Ht & _)].
  - injection H as <-. cbn [state_of] in Ht. exists []. rewrite Ht, app_nil_r.
    split; [reflexivity|exact I].
  - rewrite Hl in Hl'. injection Hl' as <-.
    destruct (pass_sample_time _ _ _ _ _ _ Hb Ht) as (l2 & integ & Hl2 & Htn & Hg & _).
    assert (Hnew : exists new', times s' = times (state_of r) ++ new' /\
                     sample_chain (step (state_of r)) tmax tol
                       (next_sample_time l (step s) tmax tol) new').
    { destruct r as [sb|sc]; cbn [state_of] in *.
      - injection H as <-. exists []. rewrite app_nil_r. split; [reflexivity|exact I].
      - apply (IH sc s' _ H). rewrite Ht. apply py_last_snoc. }
    destruct Hnew as (new' & Hts & Hch).
    exists (next_sample_time l (step s) tmax tol :: new').
    rewrite Hts, Ht, <- app_assoc. split; [reflexivity|].
    cbn [sample_chain]. rewrite Hstep in Hch.
    split; [reflexivity|]. split; [exact Hg|exact Hch].
Qed.

(** X5.  The output grid does not depend on the integrator.  The times
    a [simulate_to] call appends are determined by the last recorded
    time, the step, [tmax] and [tol] alone: each is [previous + step], or
    [tmax] for the short last step, and none of them is at or beyond
    [tmax + tol]. *)
Theorem simulate_to_time_grid fuel k (s s' : State) tmax tol l :
  simulate_to fuel k s tmax tol = Done s' ->
  py_last (R:=R) (times s) = Done l ->
  exists new, times s' = times s ++ new /\ sample_chain (step s) tmax tol l new.
Proof.
  intros H Hl. apply simulate_to_inv in H as (_ & _ & H).
  apply (simulate_loop_chain _ _ _ _ _ _ _ H Hl).
Qed.

Lemma advance_caught_up fuel cls der nst tol : forall (i i' : Integrator R P),
  advance fuel cls der nst tol i = Done i' ->
  String.eqb (status i') "running" = true ->
  geb nst (add (t i') tol) = false.
Proof.
  induction fuel as [|fuel IH]; intros i i' H Hrun; cbn [advance] in H.
  - destruct (geb nst (add (t i) tol)) eqn:Hg; [discriminate|]. injection H as <-. exact Hg.
  - destruct (geb nst (add (t i) tol)) eqn:Hg; [|injection H as <-; exact Hg].
    apply bind_Done_inv in H as (i1 & Hs & H).
    destruct (String.eqb (status i1) "running") eqn:H1; cbn [negb] in H.
    + eapply IH; eassumption.
    + injection H as <-. congruence.
Qed.

(** X8.  A sample is taken only from an integrator that has caught up.
    Whenever a pass records the sample time [tn], the integrator it
    reads (after the stepping loop) is running and its time satisfies
    the exit test of that loop: [tn >= integrator.t + tol] is false. *)
Theorem sample_read_after_catching_up k tmax tol (s : State) r tn :
  simulate_body k tmax tol s = Done r ->
  times (state_of r) = times s ++ [tn] ->
  exists integ,
    advance k (integrator_class s) (der_func_of s) tn tol (integrator s) = Done integ /\
    status integ = "running"%string /\
    geb tn (add (t integ) tol) = false.
Proof.
  intros Hb Ht. apply simulate_body_pass in Hb.
  destruct (pass_sample_time _ _ _ _ _ _ Hb Ht) as (l & integ & _ & _ & _ & Ha & Hs).
  exists integ. split; [exact Ha|]. split; [apply String.eqb_eq; exact Hs|].
  eapply advance_caught_up; eassumption.
Qed.

(** What the constructor leaves in the object it returns. *)
Lemma F16SimState_init_inv init ap0 step0 ext istr v2 pe (s : State) :
  F16SimState_init init ap0 step0 ext istr v2 pe = Done s ->
  num_vars_of ap0 <> 0 /\
  List.length (initial_x0 init (num_vars_of ap0)) mod num_vars_of ap0 = 0 /\
  states s = [initial_x0 init (num_vars_of ap0)] /\
  ap s = snd (advance_discrete_mode ap0 (of_Z 0) (initial_x0 init (num_vars_of ap0))) /\
  modes s = [mode (ap s)] /\
  ((istr = "rk45"%string /\ integrator_class s = RK45 /\ integrator_kwargs s = []) \/
   (istr = "euler"%string /\ integrator_class s = Euler /\
    integrator_kwargs s = [("step"%string, step0)])).
Proof.
  unfold F16SimState_init. intros H.
  change (if Nat.ltb (List.length init) (num_vars_of ap0)
          then pad_state init (num_vars_of ap0) else init)
    with (initial_x0 init (num_vars_of ap0)) in H.
  apply bind_Done_inv in H as (u & Hassert & H).
  apply bind_Done_inv in H as (lists & _ & H).
  destruct lists as [[[[xd0 u0] Nz0] ps0] Ny0].
  apply bind_Done_inv in H as ([cls kw] & Hcls & H).
  apply bind_Done_inv in H as (integ & _ & H).
  injection H as <-. cbn.
  destruct (num_vars_of ap0) as [|nv'] eqn:Env; [discriminate|].
  split; [discriminate|].
  split.
  { unfold py_assert in Hassert.
    destruct (Nat.eqb (List.length (initial_x0 init (S nv')) mod S nv') 0) eqn:E;
      [|discriminate].
    apply Nat.eqb_eq in E. exact E. }
  repeat (split; [reflexivity|]).
  destruct (String.eqb istr "rk45") eqn:Erk.
  - injection Hcls as <- <-. apply String.eqb_eq in Erk. left. repeat split. exact Erk.
  - apply bind_Done_inv in Hcls as (u' & Has & Hcls). injection Hcls as <- <-.
    unfold py_assert in Has. destruct (String.eqb istr "euler") eqn:Eeu; [|discriminate].
    apply String.eqb_eq in Eeu. right. repeat split. exact Eeu.
Qed.

(** X1.  The constructor pads a short initial state with zeros.  The
    state it records at time 0 starts with the given components; what
    follows them is zeros; its length is the larger of the given length
    and the per-aircraft length, and a multiple of the per-aircraft
    length. *)
Theorem F16SimState_init_pads_state init ap0 step0 ext istr v2 pe (s : State) :
  F16SimState_init init ap0 step0 ext istr v2 pe = Done s ->
  exists x0,
    states s = [x0] /\
    firstn (List.length init) x0 = init /\
    skipn (List.length init) x0 = repeat (of_Z 0) (List.length x0 - List.length init) /\
    List.length x0 = Nat.max (List.length init) (num_vars_of ap0) /\
    List.length x0 mod num_vars_of ap0 = 0.
Proof.
  intros H. apply F16SimState_init_inv in H as (Hnv & Hmod & Hst & _).
  exists (initial_x0 init (num_vars_of ap0)). split; [exact Hst|].
  revert Hmod. unfold initial_x0.
  destruct (Nat.ltb (List.length init) (num_vars_of ap0)) eqn:E; intros Hmod.
  - apply Nat.ltb_lt in E.
    assert (Hlen : List.length (init ++ repeat (of_Z 0) (num_vars_of ap0 - List.length init))
                   = num_vars_of ap0)
      by (rewrite length_app, repeat_length; lia).
    split; [|split; [|split; [|exact Hmod]]].
    + rewrite firstn_app, Nat.sub_diag, firstn_all, firstn_O, app_nil_r. reflexivity.
    + rewrite Hlen, skipn_app, Nat.sub_diag, skipn_all, skipn_O. reflexivity.
    + rewrite Hlen. lia.
  - apply Nat.ltb_ge in E.
    rewrite firstn_all, skipn_all, Nat.sub_diag.
    split; [reflexivity|]. split; [reflexivity|]. split; [lia|exact Hmod].
Qed.

(** X3.  The last recorded mode is the autopilot's current mode, after
    construction and after every [simulate_to] call that returns. *)
Theorem last_mode_is_autopilot_mode :
  (forall init ap0 step0 ext istr v2 pe (s : State),
     F16SimState_init init ap0 step0 ext istr v2 pe = Done s ->
     py_last (R:=R) (modes s) = Done (mode (ap s))) /\
  (forall fuel k (s s' : State) tmax tol,
     simulate_to fuel k s tmax tol = Done s' ->
     py_last (R:=R) (modes s) = Done (mode (ap s)) ->
     py_last (R:=R) (modes s') = Done (mode (ap s'))).
Proof.
  split.
  - intros init ap0 step0 ext istr v2 pe s H.
    apply F16SimState_init_inv in H as (_ & _ & _ & _ & Hm & _).
    rewrite Hm. reflexivity.
  - intros fuel k s s' tmax tol H. apply simulate_to_inv in H as (_ & _ & H).
    change (modes s) with (modes (set_cur_sim_time s tmax)).
    change (ap s) with (ap (set_cur_sim_time s tmax)).
    revert H.
    apply (simulate_loop_ind (fun s s' : State =>
      py_last (R:=R) (modes s) = Done (mode (ap s)) ->
      py_last (R:=R) (modes s') = Done (mode (ap s')))); [tauto|].
    intros s0 r s1 Hp IH H0. apply IH. clear IH.
    destruct Hp as [l Hl Hg|l integ Hl Hg Ha Hs|l integ xn s3 r Hl Hg Ha Hs Hx He Hf].
    + exact H0.
    + exact H0.
    + destruct (pass_sampled_state _ _ _ _ _ _ _ _ He Hf) as (i' & -> & Hap & _ & _ & Hm & _).
      cbn [modes ap set_integrator]. rewrite Hm, Hap. apply py_last_snoc.
Qed.

(** A pass that breaks and leaves a running integrator found the
    horizon covered. *)
Lemma running_break_covered k tmax tol (s s' : State) :
  pass_of k tmax tol s (Break s') ->
  status (integrator s') = "running"%string ->
  s' = s /\
  exists l, py_last (R:=R) (times s) = Done l /\
            geb (next_sample_time l (step s) tmax tol) (add tmax tol) = true.
Proof.
  intros Hp Hrun.
  inversion Hp as [l Hl Hg Heq|l integ Hl Hg Ha Hs Heq|l integ xn s3 r' Hl Hg Ha Hs Hx He Hf Heq].
  - split; [reflexivity|]. eauto.
  - exfalso. rewrite <- Heq in Hrun. cbn in Hrun. rewrite Hrun in Hs. discriminate.
  - exfalso. apply finish_or_reinit_inv in Hf
      as [(_ & Hr)|[(_ & _ & i' & _ & Hr)|(_ & _ & Hr)]]; try discriminate.
    injection Hr as Hr. rewrite Hr in Hrun. cbn in Hrun. discriminate.
Qed.

(** X6.  A call that returns with the integrator still running has
    reached its target: in exact arithmetic and for a positive
    tolerance, the last recorded time is then within [tol] of [tmax]
    ([abs(times[-1] - tmax) > tol] is false). *)
Theorem simulate_to_running_reaches_target
    (EO : @ExactOrder R SR) (SL : @StrictLaw R SR) fuel k (s s' : State) tmax tol l :
  ltb (of_Z 0) tol = true ->
  simulate_to fuel k s tmax tol = Done s' ->
  status (integrator s') = "running"%string ->
  py_last (R:=R) (times s') = Done l ->
  gtb (absR (sub l tmax)) tol = false.
Proof.
  intros Htol H Hrun Hl. apply simulate_to_inv in H as (_ & _ & H).
  pose proof (simulate_loop_running_covered _ _ _ _ _ _ H Hrun k) as Hb.
  apply simulate_body_pass in Hb.
  destruct (running_break_covered _ _ _ _ _ Hb Hrun) as (_ & l' & Hl' & Hg).
  rewrite Hl in Hl'. injection Hl' as <-.
  destruct (gtb (absR (sub l tmax)) tol) eqn:Hfar; [exfalso|reflexivity].
  pose proof (add_pos_gt tmax tol Htol) as Hlt.
  unfold next_sample_time in Hg. rewrite Hfar in Hg. cbn [andb] in Hg.
  unfold geb in Hg.
  destruct (gtb (add l (step s')) tmax) eqn:Hover.
  - rewrite (ltb_not_leb _ _ Hlt) in Hg. discriminate.
  - unfold gtb in Hover. rewrite (ltb_leb_trans _ _ _ Hlt Hg) in Hover. discriminate.
Qed.

Lemma simulate_loop_autopilot_finished
    (NF : strategies_never_autopilot_finished (SV:=SV)) k tmax tol fuel :
  forall (s s' : State),
    simulate_loop fuel k tmax tol s = Done s' ->
    status (integrator s) <> "autopilot finished"%string ->
    status (integrator s') = "autopilot finished"%string ->
    exists tn xn,
      py_last (R:=R) (times s') = Done tn /\
      py_last (R:=R) (states s') = Done xn /\
      is_finished (ap s') tn xn = true.
Proof.
  destruct NF as (Hstep & Hnew).
  induction fuel as [|fuel IH]; intros s s' H H0 Haf; [discriminate|].
  cbn [simulate_loop] in H. apply bind_Done_inv in H as (r & Hb & H).
  apply simulate_body_pass in Hb.
  destruct Hb as [l Hl Hg|l integ Hl Hg Ha Hs|l integ xn s3 r Hl Hg Ha Hs Hx He Hf].
  - injection H as <-. contradiction.
  - injection H as <-. cbn in Haf. exfalso.
    apply advance_result in Ha as [->|(j & Hj)]; [contradiction|].
    apply (Hstep _ _ _ _ Hj Haf).
  - destruct (pass_sampled_state _ _ _ _ _ _ _ _ He Hf)
      as (i' & Hr & Hap & Ht & Hxs & _ & _ & _ & _ & _ & _ & _ & _ & _ & Hi & _).
    apply String.eqb_eq in Hs.
    apply finish_or_reinit_inv in Hf
      as [(Hfin & ->)|[(_ & _ & i2 & Hn & ->)|(_ & _ & ->)]].
    + injection H as <-. cbn [times states ap set_integrator].
      exists (next_sample_time l (step s) tmax tol), xn.
      rewrite Ht, Hxs. split; [apply py_last_snoc|]. split; [apply py_last_snoc|exact Hfin].
    + apply (IH _ _ H); [|exact Haf]. cbn. intros Hbad. apply (Hnew _ _ _ _ _ _ _ Hn Hbad).
    + apply (IH _ _ H); [|exact Haf]. rewrite Hi, Hs. discriminate.
Qed.

(** X7.  The status ['autopilot finished'] is terminal and means what it
    says.  When a [simulate_to] call returns with that status (no
    strategy setting it by itself), the autopilot's [is_finished] holds
    at the last recorded time and state, and every later [simulate_to]
    call on the engine raises an assertion error. *)
Theorem autopilot_finished_is_terminal fuel k (s s' : State) tmax tol :
  strategies_never_autopilot_finished (SV:=SV) ->
  simulate_to fuel k s tmax tol = Done s' ->
  status (integrator s') = "autopilot finished"%string ->
  (exists tn xn,
     py_last (R:=R) (times s') = Done tn /\
     py_last (R:=R) (states s') = Done xn /\
     is_finished (ap s') tn xn = true) /\
  (forall fuel' k' T tol', exists msg,
     simulate_to fuel' k' s' T tol' = Raised (AssertionError msg)).
Proof.
  intros NF H Haf. split.
  - apply simulate_to_inv in H as (_ & Hrun & H).
    apply String.eqb_eq in Hrun.
    eapply simulate_loop_autopilot_finished; try eassumption.
    cbn. rewrite Hrun. discriminate.
  - intros fuel' k' T tol'. unfold simulate_to, py_assert.
    destruct (geb T (cur_sim_time s')); cbn [bind]; [|eauto].
    cbn [integrator set_cur_sim_time]. rewrite Haf. cbn. eauto.
Qed.

End EngineMore.

(** * Further properties of the derivative evaluator and of the
      extended-state extractor *)

Section DynamicsMore.

Context {R : Type} {SR : Scalar R}.
Context {AP Mode : Type} {APC : Autopilot R AP Mode} {AB : Aerobench R AP}.

(** A loop whose body is one external call never raises. *)
Lemma tfor_tcall {A} (ev : nat -> event R) (f : nat -> A) m : forall i,
  tfor (fun j => tcall (ev j) (f j)) i m = (map ev (seq i m), Done (map f (seq i m))).
Proof.
  induction m as [|m IH]; intros i; [reflexivity|].
  cbn [tfor]. rewrite tbind_tcall, tbind_tret_r, IH. reflexivity.
Qed.

Lemma pack_packed {A} (l : list A) :
  pack (R:=R) (List.length l) l = Done (packed l).
Proof.
  unfold pack, packed. destruct l as [|a [|b l]]; reflexivity.
Qed.

Lemma pack_length {A} (l : list A) n :
  List.length l = n -> pack (R:=R) n l = Done (packed l).
Proof. intros <-. apply pack_packed. Qed.

(** X9.  [get_extended_states] does not validate and does not fail.
    For a non-zero per-aircraft length it never raises, whatever the
    state (also outside the envelope of [der_func]); it calls the
    autopilot's accessor once and then the dynamics model once per
    aircraft, in order; and each of the five values it returns is the
    single value for exactly one aircraft and the tuple over the
    aircraft otherwise (the empty tuple for none). *)
Theorem get_extended_states_never_validates ap t fs ms v2 :
  num_vars_of ap <> 0 ->
  get_extended_states_traced ap t fs ms v2 =
    (Ev_get_checked_u_ref t fs ::
       map (ev_f16 t fs (get_checked_u_ref ap t fs) (num_vars_of ap))
           (seq 0 (List.length fs / num_vars_of ap)),
     Done {| ext_xd := packed (map (@out_xd R)
               (f16_outputs ap ms v2 t fs (get_checked_u_ref ap t fs) (num_vars_of ap)
                  (List.length fs / num_vars_of ap)));
             ext_u := packed (map (@out_u R)
               (f16_outputs ap ms v2 t fs (get_checked_u_ref ap t fs) (num_vars_of ap)
                  (List.length fs / num_vars_of ap)));
             ext_Nz := packed (map (@out_Nz R)
               (f16_outputs ap ms v2 t fs (get_checked_u_ref ap t fs) (num_vars_of ap)
                  (List.length fs / num_vars_of ap)));
             ext_ps := packed (map (@out_ps R)
               (f16_outputs ap ms v2 t fs (get_checked_u_ref ap t fs) (num_vars_of ap)
                  (List.length fs / num_vars_of ap)));
             ext_Ny_r := packed (map (@out_Ny_r R)
               (f16_outputs ap ms v2 t fs (get_checked_u_ref ap t fs) (num_vars_of ap)
                  (List.length fs / num_vars_of ap))) |}).
Proof.
  intros Hnv. unfold get_extended_states_traced, py_floordiv.
  destruct (num_vars_of ap) as [|nv'] eqn:Env; [congruence|].
  rewrite tbind_tlift_Done, tbind_tcall.
  set (n := List.length fs / S nv').
  set (u := get_checked_u_ref ap t fs).
  rewrite (tfor_tcall (ev_f16 t fs u (S nv'))
             (fun j => controlled_f16 t (sub_state fs (S nv') j) (sub_u_ref u j) ap ms v2) n 0).
  rewrite tbind_Done. fold (f16_outputs ap ms v2 t fs u (S nv') n).
  set (outs := f16_outputs ap ms v2 t fs u (S nv') n).
  assert (Hlen : forall {B} (g : f16_output R -> B), List.length (map g outs) = n).
  { intros B g. unfold outs, f16_outputs. rewrite !length_map, length_seq. reflexivity. }
  cbn [fst snd].
  rewrite (pack_length _ n (Hlen _ (@out_xd R))), tbind_tlift_Done.
  rewrite (pack_length _ n (Hlen _ (@out_u R))), tbind_tlift_Done.
  rewrite (pack_length _ n (Hlen _ (@out_Nz R))), tbind_tlift_Done.
  rewrite (pack_length _ n (Hlen _ (@out_ps R))), tbind_tlift_Done.
  rewrite (pack_length _ n (Hlen _ (@out_Ny_r R))), tbind_tlift_Done.
  cbn [fst snd tret]. rewrite app_nil_r. reflexivity.
Qed.

Lemma get_extended_states_Done ap t fs ms v2 :
  num_vars_of ap <> 0 ->
  exists e, get_extended_states ap t fs ms v2 = Done e /\
            ext_xd e = packed (map (@out_xd R)
              (f16_outputs ap ms v2 t fs (get_checked_u_ref ap t fs) (num_vars_of ap)
                 (List.length fs / num_vars_of ap))).
Proof.
  intros Hnv. unfold get_extended_states.
  rewrite (get_extended_states_never_validates ap t fs ms v2 Hnv).
  eexists. split; reflexivity.
Qed.

(** X10.  The derivative stored by [get_extended_states] is the one
    [der_func] integrates.  Whenever [der_func] returns a derivative for
    a state, the [xd] that [get_extended_states] returns for the same
    time and state is that derivative: the vector itself for one
    aircraft, a tuple whose concatenation is the vector otherwise. *)
Theorem extended_xd_agrees_with_der_func ap ms v2 t fs xd e :
  layout_ok (num_vars_of ap) ->
  List.length (get_checked_u_ref ap t fs) / 4 = List.length fs / num_vars_of ap ->
  make_der_func ms v2 ap t fs = Done xd ->
  get_extended_states ap t fs ms v2 = Done e ->
  (List.length fs / num_vars_of ap = 1 -> ext_xd e = Single xd) /\
  (List.length fs / num_vars_of ap <> 1 ->
     exists l, ext_xd e = Tuple l /\ List.concat l = xd /\
               List.length l = List.length fs / num_vars_of ap).
Proof.
  intros Hlay Hcount Hder Hext.
  assert (Hnv : num_vars_of ap <> 0) by (destruct Hlay; lia).
  destruct (get_extended_states_Done ap t fs ms v2 Hnv) as (e' & He' & Hxd).
  rewrite Hext in He'. injection He' as <-.
  destruct (der_func_outcome ap ms v2 t fs Hlay Hcount)
    as [[_ Heq]|(k & _ & _ & _ & q & v & Hr & _)]; [|congruence].
  rewrite Hder in Heq. injection Heq as ->.
  rewrite Hxd. unfold f16_outputs. rewrite map_map.
  change (fun x : nat =>
            out_xd (controlled_f16 t (sub_state fs (num_vars_of ap) x)
                      (sub_u_ref (get_checked_u_ref ap t fs) x) ap ms v2))
    with (xd_f16 ap ms v2 t fs (get_checked_u_ref ap t fs) (num_vars_of ap)).
  split.
  - intros ->. cbn [seq map packed List.concat]. rewrite app_nil_r. reflexivity.
  - intros Hn.
    exists (map (xd_f16 ap ms v2 t fs (get_checked_u_ref ap t fs) (num_vars_of ap))
                (seq 0 (List.length fs / num_vars_of ap))).
    split; [|split; [reflexivity|now rewrite length_map, length_seq]].
    destruct (List.length fs / num_vars_of ap) as [|[|n]]; try reflexivity.
    congruence.
Qed.

(** Inside a full sub-state, the pass of the per-aircraft loop raises
    for the first check that fails, in the order of the source. *)
Lemma der_func_aircraft_first_failure ap ms v2 t fs u nv i :
  indexable fs nv i ->
  snd (der_func_aircraft ap ms v2 t fs u nv i) =
    match first_failure (sub_state fs nv i) with
    | Some (q, v) => Raised (SimModelError q v)
    | None => Done (xd_f16 ap ms v2 t fs u nv i)
    end.
Proof.
  intros (Ha & Hv & Hh). unfold der_func_aircraft, first_failure, py_index.
  fold (sub_state fs nv i). fold (sub_u_ref u i).
  destruct (nth_error (sub_state fs nv i) StateIndex_ALPHA) as [a|] eqn:Ea;
    [|apply nth_error_None in Ea; lia].
  destruct (nth_error (sub_state fs nv i) StateIndex_VEL) as [v|] eqn:Ev;
    [|apply nth_error_None in Ev; lia].
  destruct (nth_error (sub_state fs nv i) StateIndex_ALT) as [h|] eqn:Eh;
    [|apply nth_error_None in Eh; lia].
  rewrite tbind_tlift_Done. unfold check_alpha. fold (alpha_in_range a).
  destruct (alpha_in_range a); cbn [negb]; [|reflexivity].
  rewrite !tbind_tlift_Done. unfold check_vel. fold (vel_in_range v).
  destruct (vel_in_range v); cbn [negb]; [|reflexivity].
  rewrite !tbind_tlift_Done. unfold check_alt. fold (alt_in_range h).
  destruct (alt_in_range h); cbn [negb]; [|reflexivity].
  rewrite tbind_tlift_Done, tbind_tcall. reflexivity.
Qed.

Lemma first_failure_envelope (st : list R) :
  StateIndex_ALPHA < List.length st -> StateIndex_VEL < List.length st ->
  StateIndex_ALT < List.length st ->
  (envelope_spec st = true <-> first_failure st = None).
Proof.
  intros Ha Hv Hh. unfold envelope_spec, first_failure.
  destruct (nth_error st StateIndex_ALPHA) as [a|] eqn:Ea;
    [|apply nth_error_None in Ea; lia].
  destruct (nth_error st StateIndex_VEL) as [v|] eqn:Ev;
    [|apply nth_error_None in Ev; lia].
  destruct (nth_error st StateIndex_ALT) as [h|] eqn:Eh;
    [|apply nth_error_None in Eh; lia].
  destruct (alpha_in_range a), (vel_in_range v), (alt_in_range h); cbn;
    split; congruence.
Qed.

(** The loop raises what the first raising pass raises. *)
Lemma tfor_first_raise {A} (body : nat -> traced R A) e m : forall i k,
  k < m ->
  (forall j, i <= j < i + k -> exists a, snd (body j) = Done a) ->
  snd (body (i + k)) = Raised e ->
  snd (tfor body i m) = Raised e.
Proof.
  induction m as [|m IH]; intros i k Hk Hbefore Hraise; [lia|].
  cbn [tfor]. destruct k as [|k].
  - rewrite Nat.add_0_r in Hraise.
    destruct (body i) as [tr res]. cbn [snd] in Hraise. subst res. reflexivity.
  - destruct (Hbefore i ltac:(lia)) as (a & Ha).
    destruct (body i) as [tr res] eqn:Eb. cbn [snd] in Ha. subst res.
    rewrite tbind_Done. cbn [snd]. rewrite tbind_tret_r. cbn [snd].
    rewrite (IH (S i) k); [reflexivity|lia| |].
    + intros j Hj. apply Hbefore. lia.
    + replace (S i + k) with (i + S k) by lia. exact Hraise.
Qed.

(** X12.  Which error [der_func] raises.  With the count check passed,
    [der_func] raises the model-domain error for quantity [q] with value
    [v] exactly when, in the first aircraft whose sub-state is outside
    the envelope, [q] is the first quantity out of bounds in the order
    angle of attack, airspeed, altitude, and [v] is its value. *)
Theorem der_func_reports_first_failure ap ms v2 t fs q v :
  layout_ok (num_vars_of ap) ->
  List.length (get_checked_u_ref ap t fs) / 4 = List.length fs / num_vars_of ap ->
  (make_der_func ms v2 ap t fs = Raised (SimModelError q v) <->
   exists k, k < List.length fs / num_vars_of ap /\
     (forall j, j < k -> envelope_spec (sub_state fs (num_vars_of ap) j) = true) /\
     first_failure (sub_state fs (num_vars_of ap) k) = Some (q, v)).
Proof.
  intros Hlay Hcount.
  assert (Hnv : num_vars_of ap <> 0) by (destruct Hlay; lia).
  assert (Hidx : forall j, j < List.length fs / num_vars_of ap ->
                           indexable fs (num_vars_of ap) j).
  { intros j Hj. unfold indexable. rewrite sub_state_full by assumption.
    exact Hlay. }
  assert (Hraise : forall k q0 v0,
            k < List.length fs / num_vars_of ap ->
            (forall j, j < k -> envelope_spec (sub_state fs (num_vars_of ap) j) = true) ->
            first_failure (sub_state fs (num_vars_of ap) k) = Some (q0, v0) ->
            make_der_func ms v2 ap t fs = Raised (SimModelError q0 v0)).
  { intros k q0 v0 Hk Hbefore Hff.
    unfold make_der_func. rewrite der_func_traced_eq. cbn [snd].
    rewrite der_func_rest_checked by (try assumption; now symmetry).
    cbn [snd]. rewrite Hcount.
    rewrite (tfor_first_raise _ (SimModelError q0 v0) _ 0 k Hk); [reflexivity| |].
    - intros j Hj.
      rewrite (der_func_aircraft_first_failure _ _ _ _ _ _ _ _ (Hidx j ltac:(lia))).
      destruct (Hidx j ltac:(lia)) as (A & B & C).
      rewrite (proj1 (first_failure_envelope _ A B C) (Hbefore j ltac:(lia))). eauto.
    - cbn [Nat.add].
      rewrite (der_func_aircraft_first_failure _ _ _ _ _ _ _ _ (Hidx k Hk)), Hff.
      reflexivity. }
  split.
  - intros Hr.
    destruct (der_func_outcome ap ms v2 t fs Hlay Hcount)
      as [[_ Heq]|(k & Hk & Hbefore & Hbad & q' & v' & Hr' & _)]; [congruence|].
    exists k. split; [assumption|]. split; [assumption|].
    destruct (first_failure (sub_state fs (num_vars_of ap) k)) as [[q0 v0]|] eqn:Hff.
    + pose proof (Hraise k q0 v0 Hk Hbefore Hff) as Hr0. congruence.
    + exfalso. destruct (Hidx k Hk) as (A & B & C).
      apply (first_failure_envelope _ A B C) in Hff. congruence.
  - intros (k & Hk & Hbefore & Hff). eapply Hraise; eassumption.
Qed.

End DynamicsMore.

(** * The constructor and the single-shot entry point *)

Section EngineEntry.

Context {R : Type} {SR : Scalar R}.
Context {AP Mode : Type} {APC : Autopilot R AP Mode} {AB : Aerobench R AP}.
Context {P : Type} {SV : Solvers R P}.

Local Abbreviation State := (F16SimState R AP Mode P).

(** X2.  What the constructor rejects.  An initial state that is at
    least as long as one aircraft's state and whose length is not a
    multiple of the per-aircraft length fails the size assertion (a
    shorter one never does: it is padded).  With the size accepted, an
    integrator name other than ['rk45'] and ['euler'] fails the second
    assertion. *)
Theorem F16SimState_init_rejects :
  (forall init ap0 step0 ext istr v2 pe,
     num_vars_of ap0 <> 0 ->
     num_vars_of ap0 <= List.length init ->
     List.length init mod num_vars_of ap0 <> 0 ->
     F16SimState_init (P:=P) init ap0 step0 ext istr v2 pe =
       Raised (AssertionError "expected initial state to be multiple of num_vars")) /\
  (forall init ap0 step0 ext istr v2 pe,
     num_vars_of ap0 <> 0 ->
     List.length (initial_x0 init (num_vars_of ap0)) mod num_vars_of ap0 = 0 ->
     num_vars_of (snd (advance_discrete_mode ap0 (of_Z 0)
                         (initial_x0 init (num_vars_of ap0)))) <> 0 ->
     istr <> "rk45"%string -> istr <> "euler"%string ->
     F16SimState_init (P:=P) init ap0 step0 ext istr v2 pe =
       Raised (AssertionError "integrator_str")).
Proof.
  split.
  - intros init ap0 step0 ext istr v2 pe Hnv Hlen Hmod.
    unfold F16SimState_init.
    destruct (num_vars_of ap0) as [|nv'] eqn:Env; [congruence|].
    apply Nat.ltb_ge in Hlen. rewrite Hlen.
    apply Nat.eqb_neq in Hmod. rewrite Hmod. reflexivity.
  - intros init ap0 step0 ext istr v2 pe Hnv Hmod Hnv1 Hrk Heu.
    unfold F16SimState_init.
    change (if Nat.ltb (List.length init) (num_vars_of ap0)
            then pad_state init (num_vars_of ap0) else init)
      with (initial_x0 init (num_vars_of ap0)).
    destruct (num_vars_of ap0) as [|nv'] eqn:Env; [congruence|].
    rewrite Hmod. cbn [Nat.eqb py_assert bind].
    apply String.eqb_neq in Hrk. apply String.eqb_neq in Heu.
    destruct ext.
    + destruct (get_extended_states_Done
                  (snd (advance_discrete_mode ap0 (of_Z 0) (initial_x0 init (S nv'))))
                  (of_Z 0) (initial_x0 init (S nv')) (llc_model_str ap0) v2 Hnv1)
        as (e & He & _).
      rewrite He. cbn [bind]. rewrite Hrk, Heu. reflexivity.
    + cbn [bind]. rewrite Hrk, Heu. reflexivity.
Qed.

(** X11.  What [run_f16_sim] returns.  In every result the time, state
    and mode histories have one length, the first time is 0 and the last
    one is within the tolerance of [tmax] (a run that stops earlier, for
    instance because the integrator failed, raises instead of
    returning); the five extended histories are absent when they were
    not asked for, and present with that same length when they were. *)
Theorem run_f16_sim_result_aligned
    fuel k tol0 init tmax ap0 step0 ext istr v2 pe (res : sim_result R Mode) :
  run_f16_sim (P:=P) fuel k tol0 init tmax ap0 step0 ext istr v2 pe = Done res ->
  List.length (res_times res) = List.length (res_states res) /\
  List.length (res_states res) = List.length (res_modes res) /\
  (exists rest, res_times res = of_Z 0 :: rest) /\
  (exists l, py_last (R:=R) (res_times res) = Done l /\
             ltb (absR (sub l tmax)) tol0 = true) /\
  (ext = false ->
     res_xd_list res = None /\ res_u_list res = None /\ res_Nz_list res = None /\
     res_ps_list res = None /\ res_Ny_r_list res = None) /\
  (ext = true ->
     exists a b c d e,
       res_xd_list res = Some a /\ res_u_list res = Some b /\ res_Nz_list res = Some c /\
       res_ps_list res = Some d /\ res_Ny_r_list res = Some e /\
       List.length a = List.length (res_times res) /\
       List.length b = List.length (res_times res) /\
       List.length c = List.length (res_times res) /\
       List.length d = List.length (res_times res) /\
       List.length e = List.length (res_times res)).
Proof.
  unfold run_f16_sim. intros H.
  apply bind_Done_inv in H as (fss0 & Hinit & H).
  apply bind_Done_inv in H as (fss & Hsim & H).
  apply bind_Done_inv in H as (l & Hl & H).
  apply bind_Done_inv in H as (u & Hassert & H).
  injection H as <-. cbn.
  pose proof (F16SimState_init_shape _ _ _ _ _ _ _ _ Hinit) as (Hs0 & Hz0).
  pose proof (F16SimState_init_trajectory _ _ _ _ _ _ _ _ Hinit) as (_ & _ & _ & Hext0 & _).
  apply simulate_to_inv in Hsim as (_ & _ & Hloop).
  pose proof (simulate_loop_shape _ _ _ _ _ _ Hloop Hs0) as (H1 & H2 & H3).
  pose proof (simulate_loop_starts_at_zero _ _ _ _ _ _ Hloop Hz0) as Hz.
  pose proof (simulate_loop_config _ _ _ _ _ _ Hloop) as (_ & _ & Hes & _).
  cbn [extended_states set_cur_sim_time] in Hes. rewrite Hext0 in Hes.
  split; [exact H1|]. split; [exact H2|]. split; [exact Hz|].
  split.
  { exists l. split; [exact Hl|]. unfold py_assert in Hassert.
    destruct (ltb (absR (sub l tmax)) tol0); [reflexivity|discriminate]. }
  split.
  - intros ->. repeat split.
  - intros ->. destruct (H3 Hes) as (A & B & C & D & E).
    exists (xd_list fss), (u_list fss), (Nz_list fss), (ps_list fss), (Ny_r_list fss).
    repeat split; assumption.
Qed.

(** X13.  Targets cannot go back.  Every [simulate_to] call that
    returns, also one that stopped early because the integrator failed
    or the autopilot finished, has set [cur_sim_time] to its target; a
    later call whose target is not [>=] that one (an earlier time, or a
    NaN) fails the first assertion, before the status is looked at. *)
Theorem simulate_to_rejects_earlier_target fuel k (s s' : State) tmax tol T :
  simulate_to fuel k s tmax tol = Done s' ->
  geb T tmax = false ->
  forall fuel' k' tol',
    simulate_to fuel' k' s' T tol' = Raised (AssertionError "tmax >= self.cur_sim_time").
Proof.
  intros H HT fuel' k' tol'.
  apply simulate_to_inv in H as (_ & _ & H).
  pose proof (simulate_loop_config _ _ _ _ _ _ H) as (_ & Hcur & _).
  cbn [cur_sim_time set_cur_sim_time] in Hcur.
  unfold simulate_to. rewrite Hcur, HT. reflexivity.
Qed.

End EngineEntry.

(** * The further properties on concrete inputs *)

#[export] Instance Z_strict_law : @StrictLaw Z Z_scalar.
Proof. split; cbn [leb ltb Z_scalar]; intros; lia. Qed.

#[export] Instance float_strict_law : @StrictLaw float float_scalar.
Proof.
  split; cbn [leb ltb float_scalar]. intros a b Hab.
  destruct (PrimFloat.leb b a) eqn:Hba; [exfalso|reflexivity].
  apply float_ltb_key in Hab as (ka & kb & Ha & Hb & Hab).
  apply float_leb_key in Hba as (kb' & ka' & Hb' & Ha' & Hba).
  assert (kb' = kb) by congruence. assert (ka' = ka) by congruence. subst.
  apply (key_lt_irrefl ka). destruct Hba as [Hba| ->]; eauto using key_lt_trans.
Qed.

Lemma euler_never_autopilot_finished {R} `{Scalar R} :
  strategies_never_autopilot_finished (SV := euler_solvers).
Proof.
  split.
  - intros cls der i i'. cbn [solver_of euler_solvers strat_step Euler_strategy].
    unfold Euler_step. destruct (der (t i) (x i)); intros Hi; try discriminate;
      injection Hi as <-; cbn; discriminate.
  - intros cls der t0 x0 tb kw i'. cbn [solver_of euler_solvers strat_new Euler_strategy].
    unfold Euler_new. destruct (kwarg "step" kw); intros Hi; try discriminate.
    injection Hi as <-. cbn. discriminate.
Qed.

(** X1 on the nominal state of thirteen components. *)
Lemma F16SimState_init_pads_state_witness :
  exists s0 : FState,
    fresh quiet_ap 1%float = Done s0 /\
    exists x0,
      states s0 = [x0] /\
      firstn (List.length nominal_state) x0 = nominal_state /\
      skipn (List.length nominal_state) x0
        = repeat (of_Z 0) (List.length x0 - List.length nominal_state) /\
      List.length x0 = Nat.max (List.length nominal_state) (num_vars_of quiet_ap) /\
      List.length x0 mod num_vars_of quiet_ap = 0.
Proof.
  eexists.
  match goal with
  | |- _ = Done ?s0 /\ _ =>
      split; [run_eq|];
      apply (F16SimState_init_pads_state nominal_state quiet_ap 1%float false "euler"
               false true s0)
  end.
  vm_compute. reflexivity.
Defined.

(** X4 on a run: [simulate_to(2)] with step 1. *)
Lemma simulate_to_appends_only_witness :
  exists s0 s1 : FState,
    fresh quiet_ap 1%float = Done s0 /\
    simulate_to 20 20 s0 2%float tol_default = Done s1 /\
    (keeps_samples s0 s1 /\ keeps_extended s0 s1 /\
     cur_sim_time s1 = 2%float /\ step s1 = step s0 /\
     extended_states s1 = extended_states s0 /\
     integrator_class s1 = integrator_class s0 /\
     integrator_kwargs s1 = integrator_kwargs s0).
Proof.
  eexists. eexists.
  match goal with
  | |- _ = Done ?s0 /\ _ = Done ?s1 /\ _ =>
      split; [run_eq|]; split; [run_eq|];
      apply (simulate_to_appends_only 20 20 s0 s1 2%float tol_default)
  end.
  vm_compute. reflexivity.
Defined.

(** X5 on a run: [simulate_to(2.5)] with step 1 appends 1, 2 and the
    short last step 2.5. *)
Lemma simulate_to_time_grid_witness :
  exists s0 s1 : FState,
    fresh quiet_ap 1%float = Done s0 /\
    simulate_to 20 20 s0 2.5%float tol_default = Done s1 /\
    times s1 = [0; 1; 2; 2.5]%float /\
    exists new, times s1 = times s0 ++ new /\
                sample_chain (step s0) 2.5%float tol_default 0%float new.
Proof.
  eexists. eexists.
  match goal with
  | |- _ = Done ?s0 /\ _ = Done ?s1 /\ _ =>
      split; [run_eq|]; split; [run_eq|]; split; [vm_compute; reflexivity|];
      apply (simulate_to_time_grid 20 20 s0 s1 2.5%float tol_default 0%float)
  end.
  - vm_compute. reflexivity.
  - vm_compute. reflexivity.
Defined.

(** X8 on the first pass of a run with step 1. *)
Lemma sample_read_after_catching_up_witness :
  exists (s0 : FState) r,
    fresh quiet_ap 1%float = Done s0 /\
    simulate_body 20 5%float tol_default s0 = Done r /\
    exists integ,
      advance 20 (integrator_class s0) (der_func_of s0) 1%float tol_default (integrator s0)
        = Done integ /\
      status integ = "running"%string /\
      geb 1%float (add (t integ) tol_default) = false.
Proof.
  eexists. eexists.
  match goal with
  | |- _ = Done ?s0 /\ _ = Done ?r /\ _ =>
      split; [run_eq|]; split; [run_eq|];
      apply (sample_read_after_catching_up 20 5%float tol_default s0 r 1%float)
  end.
  - vm_compute. reflexivity.
  - vm_compute. reflexivity.
Defined.

(** X6 on a run in exact arithmetic: step 2, tolerance 1, target 5; the
    last recorded time is 4. *)
Lemma simulate_to_running_reaches_target_witness :
  exists s0 s1 : ZState,
    fresh_Z = Done s0 /\
    simulate_to 20 20 s0 5%Z 1%Z = Done s1 /\
    py_last (R:=Z) (times s1) = Done 4%Z /\
    gtb (absR (sub 4%Z 5%Z)) 1%Z = false.
Proof.
  eexists. eexists.
  match goal with
  | |- _ = Done ?s0 /\ _ = Done ?s1 /\ _ =>
      split; [run_eq|]; split; [run_eq|]; split; [vm_compute; reflexivity|];
      apply (simulate_to_running_reaches_target Z_exact_order Z_strict_law
               20 20 s0 s1 5%Z 1%Z 4%Z)
  end.
  - reflexivity.
  - vm_compute. reflexivity.
  - vm_compute. reflexivity.
  - vm_compute. reflexivity.
Defined.

(** X7 on a run: the autopilot declares completion at time 2. *)
Lemma autopilot_finished_is_terminal_witness :
  exists s0 s1 : FState,
    fresh finishing_ap 1%float = Done s0 /\
    simulate_to 20 20 s0 5%float tol_default = Done s1 /\
    times s1 = [0; 1; 2]%float /\
    (exists tn xn,
       py_last (R:=float) (times s1) = Done tn /\
       py_last (R:=float) (states s1) = Done xn /\
       is_finished (ap s1) tn xn = true) /\
    (forall fuel' k' T tol', exists msg,
       simulate_to fuel' k' s1 T tol' = Raised (AssertionError msg)).
Proof.
  eexists. eexists.
  match goal with
  | |- _ = Done ?s0 /\ _ = Done ?s1 /\ _ =>
      split; [run_eq|]; split; [run_eq|]; split; [vm_compute; reflexivity|];
      apply (autopilot_finished_is_terminal 20 20 s0 s1 5%float tol_default)
  end.
  - apply euler_never_autopilot_finished.
  - vm_compute. reflexivity.
  - vm_compute. reflexivity.
Defined.

(** X9 on two aircraft, the second one outside the envelope. *)
Lemma get_extended_states_never_validates_witness :
  exists e,
    get_extended_states quiet_ap2 0%float (nominal16 ++ high16) "morelli" false = Done e /\
    ext_Nz e = Tuple [0; 0]%float /\
    fst (get_extended_states_traced quiet_ap2 0%float (nominal16 ++ high16) "morelli" false)
    = [Ev_get_checked_u_ref 0%float (nominal16 ++ high16);
       Ev_controlled_f16 0%float nominal16 [0; 0; 0; 0]%float;
       Ev_controlled_f16 0%float high16 [0; 0; 0; 0]%float].
Proof.
  assert (Hnv : num_vars_of quiet_ap2 <> 0) by (vm_compute; discriminate).
  pose proof (get_extended_states_never_validates quiet_ap2 0%float (nominal16 ++ high16)
                "morelli" false Hnv) as H.
  unfold get_extended_states. rewrite H. cbn [fst snd].
  eexists. split; [reflexivity|]. split; vm_compute; reflexivity.
Defined.

(** X10 on the nominal state of one aircraft. *)
Lemma extended_xd_agrees_with_der_func_witness :
  exists xd e,
    make_der_func "morelli" false quiet_ap 0%float nominal16 = Done xd /\
    get_extended_states quiet_ap 0%float nominal16 "morelli" false = Done e /\
    ext_xd e = Single xd.
Proof.
  eexists. eexists.
  match goal with
  | |- _ = Done ?xd /\ _ = Done ?e /\ _ =>
      split; [run_eq|]; split; [run_eq|];
      apply (extended_xd_agrees_with_der_func quiet_ap "morelli" false 0%float nominal16 xd e)
  end.
  - vm_compute. repeat split; lia.
  - vm_compute. reflexivity.
  - vm_compute. reflexivity.
  - vm_compute. reflexivity.
  - vm_compute. reflexivity.
Defined.

(** X11 on a short run with extended states. *)
Lemma run_f16_sim_result_aligned_witness :
  exists res,
    short_run = Done res /\
    res_times res = [0; 1; 2]%float /\
    List.length (res_times res) = List.length (res_states res) /\
    List.length (res_states res) = List.length (res_modes res) /\
    (exists rest, res_times res = of_Z 0 :: rest) /\
    (exists l, py_last (R:=float) (res_times res) = Done l /\
               ltb (absR (sub l 2%float)) tol_default = true) /\
    (true = false ->
       res_xd_list res = None /\ res_u_list res = None /\ res_Nz_list res = None /\
       res_ps_list res = None /\ res_Ny_r_list res = None) /\
    (true = true ->
       exists a b c d e,
         res_xd_list res = Some a /\ res_u_list res = Some b /\ res_Nz_list res = Some c /\
         res_ps_list res = Some d /\ res_Ny_r_list res = Some e /\
         List.length a = List.length (res_times res) /\
         List.length b = List.length (res_times res) /\
         List.length c = List.length (res_times res) /\
         List.length d = List.length (res_times res) /\
         List.length e = List.length (res_times res)).
Proof.
  eexists.
  match goal with
  | |- _ = Done ?res /\ _ =>
      split; [run_eq|]; split; [vm_compute; reflexivity|];
      apply (run_f16_sim_result_aligned (P := euler_internals float) 20 20 tol_default
               nominal_state 2%float quiet_ap 1%float true "euler" false true res)
  end.
  vm_compute. reflexivity.
Defined.

(** X12 on two aircraft whose second one is too high: the error is
    about the altitude of that aircraft. *)
Lemma der_func_reports_first_failure_witness :
  make_der_func "morelli" false quiet_ap2 0%float (nominal16 ++ high16)
    = Raised (SimModelError Q_altitude 200000%float) <->
  exists k, k < List.length (nominal16 ++ high16) / num_vars_of quiet_ap2 /\
    (forall j, j < k ->
       envelope_spec (sub_state (nominal16 ++ high16) (num_vars_of quiet_ap2) j) = true) /\
    first_failure (sub_state (nominal16 ++ high16) (num_vars_of quiet_ap2) k)
      = Some (Q_altitude, 200000%float).
Proof.
  apply (der_func_reports_first_failure quiet_ap2 "morelli" false 0%float
           (nominal16 ++ high16) Q_altitude 200000%float).
  - vm_compute. repeat split; lia.
  - vm_compute. reflexivity.
Defined.

(** X13 on a run: after [simulate_to(2)] a call [simulate_to(1)] is
    rejected. *)
Lemma simulate_to_rejects_earlier_target_witness :
  exists s0 s1 : FState,
    fresh quiet_ap 1%float = Done s0 /\
    simulate_to 20 20 s0 2%float tol_default = Done s1 /\
    forall fuel' k' tol',
      simulate_to fuel' k' s1 1%float tol'
        = Raised (AssertionError "tmax >= self.cur_sim_time").
Proof.
  eexists. eexists.
  match goal with
  | |- _ = Done ?s0 /\ _ = Done ?s1 /\ _ =>
      split; [run_eq|]; split; [run_eq|];
      apply (simulate_to_rejects_earlier_target 20 20 s0 s1 2%float tol_default 1%float)
  end.
  - vm_compute. reflexivity.
  - vm_compute. reflexivity.
Defined.

(** X2 on a state of seventeen components for sixteen per aircraft, and
    on the integrator name ['rk4']. *)
Lemma F16SimState_init_rejects_witness :
  F16SimState_init (P := euler_internals float) (nominal16 ++ [0%float]) quiet_ap 1%float
    false "euler" false true
    = Raised (AssertionError "expected initial state to be multiple of num_vars") /\
  F16SimState_init (P := euler_internals float) nominal_state quiet_ap 1%float
    false "rk4" false true
    = Raised (AssertionError "integrator_str").
Proof.
  split.
  - apply (proj1 (@F16SimState_init_rejects float float_scalar (script_ap float) nat _ _
                    (euler_internals float) _)).
    + vm_compute. discriminate.
    + vm_compute. lia.
    + vm_compute. discriminate.
  - apply (proj2 (@F16SimState_init_rejects float float_scalar (script_ap float) nat _ _
                    (euler_internals float) _)).
    + vm_compute. discriminate.
    + vm_compute. reflexivity.
    + vm_compute. discriminate.
    + discriminate.
    + discriminate.
Defined.

(** X3 on a run whose autopilot changes its mode at time 1. *)
Lemma last_mode_is_autopilot_mode_witness :
  exists s0 s1 : FState,
    fresh switching_ap 1%float = Done s0 /\
    simulate_to 20 20 s0 3%float tol_default = Done s1 /\
    modes s1 = [0; 1; 1; 1] /\
    py_last (R:=float) (modes s0) = Done (mode (ap s0)) /\
    py_last (R:=float) (modes s1) = Done (mode (ap s1)).
Proof.
  eexists. eexists.
  match goal with
  | |- _ = Done ?s0 /\ _ = Done ?s1 /\ _ =>
      split; [run_eq|]; split; [run_eq|]; split; [vm_compute; reflexivity|];
      assert (E0 : py_last (R:=float) (modes s0) = Done (mode (ap s0)));
      [ apply (proj1 (@last_mode_is_autopilot_mode float float_scalar (script_ap float)
                        nat _ _ (euler_internals float) _)
                 nominal_state switching_ap 1%float false "euler"%string false true s0)
      | split; [exact E0|];
        apply (proj2 (@last_mode_is_autopilot_mode float float_scalar (script_ap float)
                        nat _ _ (euler_internals float) _)
                 20 20 s0 s1 3%float tol_default); [|exact E0] ]
  end.
  - vm_compute. reflexivity.
  - vm_compute. reflexivity.
Defined.
